(** * Umbra Protocol prover service: a shallow embedding of the Go prover
    ([prover/main.go], [prover/cache.go], [prover/rate_limiter.go]) and of the
    recency check of the circom circuits, with the properties of the
    proof-generation pipeline stated over it.

    Conventions.
    - Go [string]s are byte strings: they are Rocq [string]s, [len] is
      [String.length] and [s[0]] is the first character.
    - Go [int], [int64] and [time.Duration] values are [Z]; where the source
      can wrap around, the wrap is written out ([wrap64]).
    - [time.Time] is a number of nanoseconds since the Unix epoch.
    - A Go [error] is [option string]: [None] is [nil].
    - Logging ([log.Printf]) is not modelled. *)

From Stdlib Require Import ZArith Lia Bool List.
From Stdlib Require Import String Ascii.
From stdpp Require Import gmap strings list.

Local Open Scope Z_scope.
Local Open Scope string_scope.

(** ** Go primitives *)

Definition error : Type := string.

Definition second : Z := 1000000000.
Definition minute : Z := 60 * second.
Definition hour : Z := 60 * minute.

(** [t.Unix()] *)
Definition Unix (t : Z) : Z := t / second.

(** [d.Milliseconds()] *)
Definition Milliseconds (d : Z) : Z := Z.quot d 1000000.

(** Two's complement wrap-around of a 64-bit signed integer. *)
Definition wrap64 (z : Z) : Z := (z + 2 ^ 63) mod 2 ^ 64 - 2 ^ 63.

(** [len(s)] *)
Definition len (s : string) : Z := Z.of_nat (String.length s).

(** [s[0] == c]; the callers index only strings already known non-empty. *)
Definition first_byte_is (c : ascii) (s : string) : bool :=
  match s with
  | EmptyString => false
  | String d _ => Ascii.eqb d c
  end.

(** ** The request and response types of [main.go] *)

Record ProofRequest := {
  MinAmount : string;
  RecipientKeyX : string;
  RecipientKeyY : string;
  MaxBlockAge : string;
  CurrentTime : Z;
  ActualAmount : string;
  SenderKeyX : string;
  SenderKeyY : string;
  PaymentTime : Z;
  SignatureR8X : string;
  SignatureR8Y : string;
  SignatureS : string
}.

Record ProofResponse := {
  Proof : string;
  PublicInputs : list string;
  GenerationTime : Z
}.

(** ** Input validation ([isValidNumeric], [validateProofRequest]) *)

(** The loop body's test [c < '0' || c > '9'].  The Go loop ranges over
    runes; a rune is an ASCII digit exactly when it is a single byte in
    ['0'..'9'], so ranging over bytes rejects the same strings. *)
Definition not_digit (c : ascii) : bool :=
  (N_of_ascii c <? 48)%N || (57 <? N_of_ascii c)%N.

Fixpoint all_digits (s : string) : bool :=
  match s with
  | EmptyString => true
  | String c rest => if not_digit c then false else all_digits rest
  end.

Definition isValidNumeric (s : string) : bool :=
  if String.eqb s "" then false else all_digits s.

(** [now] is the reading of [time.Now()] taken inside the function. *)
Definition validateProofRequest (now : Z) (req : ProofRequest) : option error :=
  if String.eqb (MinAmount req) "" then Some "minAmount is required"
  else if String.eqb (RecipientKeyX req) "" then Some "recipientKeyX is required"
  else if String.eqb (RecipientKeyY req) "" then Some "recipientKeyY is required"
  else if String.eqb (ActualAmount req) "" then Some "actualAmount is required"
  else if String.eqb (SenderKeyX req) "" then Some "senderKeyX is required"
  else if String.eqb (SenderKeyY req) "" then Some "senderKeyY is required"
  else if String.eqb (SignatureR8X req) "" then Some "signatureR8x is required"
  else if String.eqb (SignatureR8Y req) "" then Some "signatureR8y is required"
  else if String.eqb (SignatureS req) "" then Some "signatureS is required"
  else if (100 <? len (MinAmount req))%Z then Some "minAmount too long (max 100 chars)"
  else if (100 <? len (RecipientKeyX req))%Z then Some "recipientKeyX too long (max 100 chars)"
  else if (100 <? len (RecipientKeyY req))%Z then Some "recipientKeyY too long (max 100 chars)"
  else if negb (isValidNumeric (MinAmount req)) then Some "minAmount must be numeric"
  else if negb (isValidNumeric (ActualAmount req)) then Some "actualAmount must be numeric"
  else if negb (isValidNumeric (MaxBlockAge req)) then Some "maxBlockAge must be numeric"
  else if String.eqb (MinAmount req) "0" || first_byte_is "-" (MinAmount req)
    then Some "minAmount must be positive"
  else if String.eqb (ActualAmount req) "0" || first_byte_is "-" (ActualAmount req)
    then Some "actualAmount must be positive"
  else
    let currentTime := Unix now in
    if (CurrentTime req <? currentTime - 300)%Z || (currentTime + 60 <? CurrentTime req)%Z
      then Some "currentTime must be within last 5 minutes"
    else if (PaymentTime req <? currentTime - 300)%Z || (currentTime + 60 <? PaymentTime req)%Z
      then Some "paymentTime must be within last 5 minutes"
    else if (CurrentTime req <? PaymentTime req)%Z
      then Some "paymentTime cannot be in the future"
    else None.

(** [big.Int.SetString(s, 10)]: an optional sign followed by one or more
    decimal digits; anything else fails. *)
Definition digit_value (c : ascii) : Z := Z.of_N (N_of_ascii c) - 48.

Fixpoint parse_digits (acc : Z) (s : string) : option Z :=
  match s with
  | EmptyString => Some acc
  | String c rest =>
      if not_digit c then None else parse_digits (10 * acc + digit_value c) rest
  end.

Definition parse_unsigned (s : string) : option Z :=
  match s with
  | EmptyString => None
  | _ => parse_digits 0 s
  end.

Definition SetString10 (s : string) : option Z :=
  match s with
  | String "-" rest => option_map Z.opp (parse_unsigned rest)
  | String "+" rest => parse_unsigned rest
  | _ => parse_unsigned s
  end.

(** [big.Int.Bytes()]: the absolute value as a big-endian byte string
    without leading zero bytes (the empty string for zero). *)
Definition byte_of_N (n : N) : Byte.byte :=
  match Byte.of_N n with
  | Some b => b
  | None => Byte.x00
  end.

Fixpoint bytes_be (fuel : nat) (n : N) (acc : list Byte.byte) : list Byte.byte :=
  match fuel with
  | O => acc
  | S fuel' =>
      if (n =? 0)%N then acc
      else bytes_be fuel' (n / 256) (byte_of_N (n mod 256) :: acc)
  end.

Definition Bytes (z : Z) : list Byte.byte :=
  bytes_be (N.to_nat (N.size (Z.abs_N z))) (Z.abs_N z) [].

(** [fmt.Sprintf("%d", z)] *)
Fixpoint decimal_be (fuel : nat) (n : N) (acc : string) : string :=
  match fuel with
  | O => acc
  | S fuel' =>
      if (n =? 0)%N then acc
      else decimal_be fuel' (n / 10) (String (ascii_of_N (48 + n mod 10)) acc)
  end.

Definition Sprintf_d (z : Z) : string :=
  let n := Z.abs_N z in
  let digits :=
    if (n =? 0)%N then "0"
    else decimal_be (N.to_nat (N.size n)) n "" in
  if (z <? 0)%Z then String "-" digits else digits.

(** ** The gnark circuit of [main.go] ([PaymentCircuit], [Define])

    A [frontend.Variable] is an [interface{}]; the handler assigns request
    strings and [int64]s to it.  The struct is used both for the assignment
    (values of type [frontend_Variable]) and, once solved, for the field elements
    (values of type [Z], canonical representatives in [[0, q)]). *)

Inductive frontend_Variable :=
| VString (s : string)
| VInt64 (z : Z).

Module PaymentCircuit.
Record t (V : Type) := mk {
  MinAmount : V;
  RecipientKeyX : V;
  RecipientKeyY : V;
  MaxBlockAge : V;
  CurrentTime : V;
  ActualAmount : V;
  SenderKeyX : V;
  SenderKeyY : V;
  PaymentTime : V;
  SignatureR8X : V;
  SignatureR8Y : V;
  SignatureS : V
}.
Arguments mk {V}.
Arguments MinAmount {V}.
Arguments RecipientKeyX {V}.
Arguments RecipientKeyY {V}.
Arguments MaxBlockAge {V}.
Arguments CurrentTime {V}.
Arguments ActualAmount {V}.
Arguments SenderKeyX {V}.
Arguments SenderKeyY {V}.
Arguments PaymentTime {V}.
Arguments SignatureR8X {V}.
Arguments SignatureR8Y {V}.
Arguments SignatureS {V}.
End PaymentCircuit.

(** [ecc.BN254.ScalarField()] *)
Definition ScalarField : Z :=
  21888242871839275222246405745257275088548364400416034343698204186575808495617.

(** [api.Sub] over the scalar field. *)
Definition api_Sub (a b : Z) : Z := (a - b) mod ScalarField.

(** [api.AssertIsLessOrEqual(v, bound)]: the constraint holds when the
    canonical representative of [v] is at most that of [bound]. *)
Definition api_AssertIsLessOrEqual (v bound : Z) : bool := (v <=? bound)%Z.

(** The "Amount check" of [Define]. *)
Definition Define_amount_check (c : PaymentCircuit.t Z) : bool :=
  api_AssertIsLessOrEqual (PaymentCircuit.MinAmount c) (PaymentCircuit.ActualAmount c).

(** The "Time check" of [Define]. *)
Definition Define_time_check (c : PaymentCircuit.t Z) : bool :=
  let timeDiff := api_Sub (PaymentCircuit.CurrentTime c) (PaymentCircuit.PaymentTime c) in
  api_AssertIsLessOrEqual timeDiff (PaymentCircuit.MaxBlockAge c).

(** ** The recency check of the circom circuits
    ([payment_proof.circom], [payment_proof_optimized.circom])

    [LessThan(n)] of circomlib's [comparators.circom], which the circuits
    include: [Num2Bits(n+1)] constrains [in[0] + (1 << n) - in[1]] to [n+1]
    bits (no witness otherwise) and [out] is [1 - bit n]. *)
Definition LessThan (n : Z) (in0 in1 : Z) : option Z :=
  let v := (in0 + Z.shiftl 1 n - in1) mod ScalarField in
  if (v <? Z.shiftl 1 (n + 1))%Z
  then Some (1 - Z.b2z (Z.testbit v n))
  else None.

(** [timeDiff <== currentTime - paymentTime; timeCheck = LessThan(64);
    timeCheck.out === 1]. *)
Definition circom_timeCheck (currentTime paymentTime maxBlockAge : Z) : bool :=
  let timeDiff := (currentTime - paymentTime) mod ScalarField in
  match LessThan 64 timeDiff maxBlockAge with
  | Some out => (out =? 1)%Z
  | None => false
  end.

(** ** The rate limiter ([rate_limiter.go]) *)

Record TokenBucket := {
  tokens : Z;
  lastRefill : Z
}.

Record RateLimiter := {
  buckets : gmap string TokenBucket;
  maxRate : Z;
  period : Z;
  cleanupInterval : Z
}.

Definition NewRateLimiter (maxRate period : Z) : RateLimiter :=
  {| buckets := ∅; maxRate := maxRate; period := period;
     cleanupInterval := 5 * minute |}.

Definition set_buckets (m : gmap string TokenBucket) (rl : RateLimiter) : RateLimiter :=
  {| buckets := m; maxRate := maxRate rl; period := period rl;
     cleanupInterval := cleanupInterval rl |}.

(** [Allow]: [created] is the reading of [time.Now()] stored in a new
    bucket, [now] the reading taken for the refill.  Integer division by a
    zero period panics ([None]).  Durations are 64-bit: the quotient and the
    product wrap around.  The bucket is a pointer held by the map: its
    final value is what the map holds afterwards. *)
Definition Allow (created now : Z) (ip : string) (rl : RateLimiter)
  : option (bool * RateLimiter) :=
  let bucket :=
    match buckets rl !! ip with
    | Some b => b
    | None => {| tokens := maxRate rl; lastRefill := created |}
    end in
  let elapsed := now - lastRefill bucket in
  if (period rl =? 0)%Z then None
  else
    let tokensToAdd := wrap64 (wrap64 (Z.quot elapsed (period rl)) * maxRate rl) in
    let bucket :=
      if (0 <? tokensToAdd)%Z then
        let t := wrap64 (tokens bucket + tokensToAdd) in
        {| tokens := if (maxRate rl <? t)%Z then maxRate rl else t;
           lastRefill := now |}
      else bucket in
    if (0 <? tokens bucket)%Z then
      Some (true,
            set_buckets (<[ip := {| tokens := tokens bucket - 1;
                                    lastRefill := lastRefill bucket |}]> (buckets rl)) rl)
    else
      Some (false, set_buckets (<[ip := bucket]> (buckets rl)) rl).

(** A run of consecutive [Allow] calls of one client, one pair of clock
    readings per call. *)
Fixpoint AllowRun (clock : list (Z * Z)) (ip : string) (rl : RateLimiter)
  : option (list bool * RateLimiter) :=
  match clock with
  | [] => Some ([], rl)
  | (created, now) :: clock' =>
      match Allow created now ip rl with
      | None => None
      | Some (ok, rl') =>
          match AllowRun clock' ip rl' with
          | None => None
          | Some (oks, rl'') => Some (ok :: oks, rl'')
          end
      end
  end.

(** One sweep of the [cleanup] goroutine at time [now]. *)
Definition RateLimiter_cleanup (now : Z) (rl : RateLimiter) : RateLimiter :=
  set_buckets
    (filter (fun kv => negb (10 * minute <? now - lastRefill (snd kv))%Z = true)
            (buckets rl)) rl.

(** What a bucket of [k] tokens answers to [n] calls when nothing is
    refilled in between. *)
Fixpoint drain (k : Z) (n : nat) : list bool :=
  match n with
  | O => []
  | S n' => (0 <? k)%Z :: drain (if (0 <? k)%Z then k - 1 else k) n'
  end.

(** The tokens left in that bucket afterwards. *)
Fixpoint remaining (k : Z) (n : nat) : Z :=
  match n with
  | O => k
  | S n' => remaining (if (0 <? k)%Z then k - 1 else k) n'
  end.

(** ** External libraries

    What the prover calls but does not define: gnark, gnark-crypto, math/big,
    crypto/sha256 and encoding/json.  Every property below holds for any
    implementation of this interface. *)
Record Backend := {
  (** [groth16.Proof] *)
  G16Proof : Type;
  (** [hex.EncodeToString(sha256.Sum256([]byte(data)))] *)
  sha256_hex : string -> string;
  (** [req.RecipientKey], which [cache.go] reads and the [ProofRequest] of
      [main.go] does not declare. *)
  RecipientKey : ProofRequest -> string;
  (** the value of a [big.Int] after a failed [SetString], which math/big
      leaves undefined *)
  big_undefined : string -> Z;
  (** [hash.MIMC_BN254]: the digest after the given sequence of [Write]s *)
  MIMC_BN254 : list (list Byte.byte) -> list Byte.byte;
  (** [eddsa.PublicKey.Verify] of gnark-crypto on the key [(A.X, A.Y)], the
      signature [(R.X, R.Y, S)] and the message: [(isValid, err)] *)
  PublicKey_Verify :
    Z * Z -> Z * Z * list Byte.byte -> list Byte.byte -> bool * option error;
  (** the field element gnark assigns for a string value, if it parses *)
  fr_SetString : string -> option Z;
  (** [mimc.Sum()] of gnark's in-circuit MiMC after the given [Write]s *)
  mimc_Sum : list Z -> Z;
  (** whether the constraints added by the in-circuit [eddsa.Verify] hold
      for the signature [(R.X, R.Y, S)], the message and the key [(A.X, A.Y)] *)
  eddsa_Verify : Z * Z * Z -> Z -> Z * Z -> bool;
  (** the Groth16 prover on a witness that satisfies the constraints *)
  groth16_prover : PaymentCircuit.t Z -> option G16Proof;
  (** [witness.Public()] *)
  witness_Public : PaymentCircuit.t Z -> option (list Z);
  (** [groth16.Verify(proof, verifyingKey, publicWitness) == nil] *)
  groth16_Verify : G16Proof -> list Z -> bool;
  (** [json.Marshal(proof)] *)
  json_Marshal : G16Proof -> option string
}.

(** [Define]: whether every assertion of the circuit holds on the solved
    values [c]. *)
Definition Define (B : Backend) (c : PaymentCircuit.t Z) : bool :=
  Define_amount_check c &&
  Define_time_check c &&
  (let messageHash :=
     mimc_Sum B [PaymentCircuit.ActualAmount c; PaymentCircuit.SenderKeyX c;
                 PaymentCircuit.SenderKeyY c; PaymentCircuit.RecipientKeyX c;
                 PaymentCircuit.RecipientKeyY c; PaymentCircuit.PaymentTime c] in
   eddsa_Verify B
     (PaymentCircuit.SignatureR8X c, PaymentCircuit.SignatureR8Y c,
      PaymentCircuit.SignatureS c)
     messageHash
     (PaymentCircuit.SenderKeyX c, PaymentCircuit.SenderKeyY c)).

(** [frontend.NewWitness(&assignment, ecc.BN254.ScalarField())] *)
Definition fr_of_Variable (B : Backend) (v : frontend_Variable) : option Z :=
  match v with
  | VString s => fr_SetString B s
  | VInt64 z => Some (z mod ScalarField)
  end.

Definition frontend_NewWitness (B : Backend) (a : PaymentCircuit.t frontend_Variable)
  : option (PaymentCircuit.t Z) :=
  minAmount ← fr_of_Variable B (PaymentCircuit.MinAmount a);
  recipientKeyX ← fr_of_Variable B (PaymentCircuit.RecipientKeyX a);
  recipientKeyY ← fr_of_Variable B (PaymentCircuit.RecipientKeyY a);
  maxBlockAge ← fr_of_Variable B (PaymentCircuit.MaxBlockAge a);
  currentTime ← fr_of_Variable B (PaymentCircuit.CurrentTime a);
  actualAmount ← fr_of_Variable B (PaymentCircuit.ActualAmount a);
  senderKeyX ← fr_of_Variable B (PaymentCircuit.SenderKeyX a);
  senderKeyY ← fr_of_Variable B (PaymentCircuit.SenderKeyY a);
  paymentTime ← fr_of_Variable B (PaymentCircuit.PaymentTime a);
  signatureR8X ← fr_of_Variable B (PaymentCircuit.SignatureR8X a);
  signatureR8Y ← fr_of_Variable B (PaymentCircuit.SignatureR8Y a);
  signatureS ← fr_of_Variable B (PaymentCircuit.SignatureS a);
  Some (PaymentCircuit.mk minAmount recipientKeyX recipientKeyY maxBlockAge
          currentTime actualAmount senderKeyX senderKeyY paymentTime
          signatureR8X signatureR8Y signatureS).

(** [groth16.Prove(ccs, provingKey, witness)]: the solver rejects a witness
    that violates a constraint of [Define]. *)
Definition groth16_Prove (B : Backend) (witness : PaymentCircuit.t Z)
  : option (G16Proof B) :=
  if Define B witness then groth16_prover B witness else None.

(** ** Signature pre-verification ([preVerifySignature]) *)

Definition big_SetString (B : Backend) (s : string) : Z :=
  match SetString10 s with
  | Some z => z
  | None => big_undefined B s
  end.

Definition preVerifySignature (B : Backend) (req : ProofRequest) : option error :=
  let senderX := big_SetString B (SenderKeyX req) in
  let senderY := big_SetString B (SenderKeyY req) in
  let r8x := big_SetString B (SignatureR8X req) in
  let r8y := big_SetString B (SignatureR8Y req) in
  let s := big_SetString B (SignatureS req) in
  let actualAmount := big_SetString B (ActualAmount req) in
  let recipientX := big_SetString B (RecipientKeyX req) in
  let recipientY := big_SetString B (RecipientKeyY req) in
  let paymentTime := PaymentTime req in
  let messageHash :=
    MIMC_BN254 B [Bytes actualAmount; Bytes senderX; Bytes senderY;
                  Bytes recipientX; Bytes recipientY; Bytes paymentTime] in
  match PublicKey_Verify B (senderX, senderY) (r8x, r8y, Bytes s) messageHash with
  | (_, Some err) => Some ("signature verification error: " ++ err)
  | (false, None) => Some "invalid EdDSA signature"
  | (true, None) => None
  end.

(** ** The proof cache ([cache.go])

    [CachedProof.PublicInputs] is declared [string] and assigned the
    [[]string] of the response; the value is only passed through, and is a
    list of strings here. *)

Module CachedProof.
Record t := mk {
  Proof : string;
  PublicInputs : list string;
  GeneratedAt : Z;
  AccessCount : Z
}.
End CachedProof.

Record ProofCache := {
  cache : gmap string CachedProof.t;
  maxSize : Z;
  ttl : Z
}.

Definition NewProofCache (maxSize ttl : Z) : ProofCache :=
  {| cache := ∅; maxSize := maxSize; ttl := ttl |}.

Definition set_cache (m : gmap string CachedProof.t) (pc : ProofCache) : ProofCache :=
  {| cache := m; maxSize := maxSize pc; ttl := ttl pc |}.

Definition generateCacheKey (B : Backend) (req : ProofRequest) : string :=
  let data := MinAmount req ++ RecipientKey B req ++ MaxBlockAge req in
  sha256_hex B data.

(** [Get]; [now] is the clock reading behind [time.Since]. *)
Definition Get (B : Backend) (now : Z) (req : ProofRequest) (pc : ProofCache)
  : option ProofResponse * ProofCache :=
  let key := generateCacheKey B req in
  match cache pc !! key with
  | None => (None, pc)
  | Some cached =>
      if (ttl pc <? now - CachedProof.GeneratedAt cached)%Z then (None, pc)
      else
        let cached' :=
          CachedProof.mk (CachedProof.Proof cached) (CachedProof.PublicInputs cached)
            (CachedProof.GeneratedAt cached)
            (wrap64 (CachedProof.AccessCount cached + 1)) in
        (Some {| Proof := CachedProof.Proof cached;
                 PublicInputs := CachedProof.PublicInputs cached;
                 GenerationTime := 0 |},
         set_cache (<[key := cached']> (cache pc)) pc)
  end.

(** [evictLRU]; [now] is its [time.Now()].  Go ranges over the map in an
    unspecified order; the order here is the one of [map_fold]. *)
Definition evictLRU (now : Z) (pc : ProofCache) : ProofCache :=
  let oldest :=
    map_fold (fun key cached (acc : string * Z) =>
                if (CachedProof.GeneratedAt cached <? snd acc)%Z
                then (key, CachedProof.GeneratedAt cached) else acc)
             ("", now) (cache pc) in
  if String.eqb (fst oldest) "" then pc
  else set_cache (delete (fst oldest) (cache pc)) pc.

(** [Set] ([Set] is reserved in Rocq); [evictNow] is the clock reading of [evictLRU], [now] the one
    stored in the entry. *)
Definition ProofCache_Set (B : Backend) (evictNow now : Z) (req : ProofRequest)
    (resp : ProofResponse) (pc : ProofCache) : ProofCache :=
  let key := generateCacheKey B req in
  let pc := if (maxSize pc <=? Z.of_nat (size (cache pc)))%Z
            then evictLRU evictNow pc else pc in
  set_cache (<[key := CachedProof.mk (Proof resp) (PublicInputs resp) now 1]> (cache pc)) pc.

(** One sweep of the [cleanup] goroutine at time [now]. *)
Definition cleanup (now : Z) (pc : ProofCache) : ProofCache :=
  set_cache
    (filter (fun kv => negb (ttl pc <? now - CachedProof.GeneratedAt (snd kv))%Z = true)
            (cache pc)) pc.

(** ** The request handler ([generateProofHandler]) *)

(** [gin.H{"error": msg}] or a [ProofResponse]. *)
Inductive Body :=
| ErrorBody (msg : string)
| ProofBody (r : ProofResponse).

Record Response := {
  status : Z;
  body : Body
}.

Definition StatusOK : Z := 200.
Definition StatusBadRequest : Z := 400.
Definition StatusInternalServerError : Z := 500.

Definition JSON_error (code : Z) (msg : string) : Response :=
  {| status := code; body := ErrorBody msg |}.

(** Calls into the cryptographic pipeline, recorded in the order made
    (ghost state: the source keeps no such log). *)
Inductive Call :=
| CallPreVerifySignature
| CallNewWitness
| CallProve
| CallVerify.

(** The process state the handler reads and writes: the global
    [proofCache], the Prometheus counters and histograms of [metrics.go]
    (durations in nanoseconds), and the ghost call log. *)
Record Server := {
  proofCache : ProofCache;
  proofGenerationErrors : Z;
  proofGenerationTotal : Z;
  proofGenerationDuration : list Z;
  proofVerificationDuration : list Z;
  calls : list Call
}.

Definition set_proofCache (pc : ProofCache) (s : Server) : Server :=
  {| proofCache := pc;
     proofGenerationErrors := proofGenerationErrors s;
     proofGenerationTotal := proofGenerationTotal s;
     proofGenerationDuration := proofGenerationDuration s;
     proofVerificationDuration := proofVerificationDuration s;
     calls := calls s |}.

Definition proofGenerationErrors_Inc (s : Server) : Server :=
  {| proofCache := proofCache s;
     proofGenerationErrors := proofGenerationErrors s + 1;
     proofGenerationTotal := proofGenerationTotal s;
     proofGenerationDuration := proofGenerationDuration s;
     proofVerificationDuration := proofVerificationDuration s;
     calls := calls s |}.

Definition proofGenerationTotal_Inc (s : Server) : Server :=
  {| proofCache := proofCache s;
     proofGenerationErrors := proofGenerationErrors s;
     proofGenerationTotal := proofGenerationTotal s + 1;
     proofGenerationDuration := proofGenerationDuration s;
     proofVerificationDuration := proofVerificationDuration s;
     calls := calls s |}.

Definition proofGenerationDuration_Observe (d : Z) (s : Server) : Server :=
  {| proofCache := proofCache s;
     proofGenerationErrors := proofGenerationErrors s;
     proofGenerationTotal := proofGenerationTotal s;
     proofGenerationDuration := proofGenerationDuration s ++ [d];
     proofVerificationDuration := proofVerificationDuration s;
     calls := calls s |}.

Definition proofVerificationDuration_Observe (d : Z) (s : Server) : Server :=
  {| proofCache := proofCache s;
     proofGenerationErrors := proofGenerationErrors s;
     proofGenerationTotal := proofGenerationTotal s;
     proofGenerationDuration := proofGenerationDuration s;
     proofVerificationDuration := proofVerificationDuration s ++ [d];
     calls := calls s |}.

Definition record_call (c : Call) (s : Server) : Server :=
  {| proofCache := proofCache s;
     proofGenerationErrors := proofGenerationErrors s;
     proofGenerationTotal := proofGenerationTotal s;
     proofGenerationDuration := proofGenerationDuration s;
     proofVerificationDuration := proofVerificationDuration s;
     calls := calls s ++ [c] |}.

(** The readings of [time.Now()] during one request, one per call site. *)
Record Clock := {
  t_start : Z;        (* startTime := time.Now() *)
  t_validate : Z;     (* in validateProofRequest *)
  t_get : Z;          (* time.Since in Get *)
  t_proofStart : Z;   (* proofStart := time.Now() *)
  t_proofEnd : Z;     (* time.Since(proofStart) *)
  t_verifyStart : Z;  (* verifyStart := time.Now() *)
  t_verifyEnd : Z;    (* time.Since(verifyStart) *)
  t_generated : Z;    (* time.Since(startTime) *)
  t_evict : Z;        (* time.Now() in evictLRU *)
  t_set : Z           (* time.Now() in Set *)
}.

Definition assignment_of (req : ProofRequest) : PaymentCircuit.t frontend_Variable :=
  PaymentCircuit.mk
    (VString (MinAmount req)) (VString (RecipientKeyX req))
    (VString (RecipientKeyY req)) (VString (MaxBlockAge req))
    (VInt64 (CurrentTime req)) (VString (ActualAmount req))
    (VString (SenderKeyX req)) (VString (SenderKeyY req))
    (VInt64 (PaymentTime req)) (VString (SignatureR8X req))
    (VString (SignatureR8Y req)) (VString (SignatureS req)).

(** The part of the handler after the cache miss. *)
Definition generateProof (B : Backend) (clk : Clock) (req : ProofRequest) (s : Server)
  : Response * Server :=
  let s := record_call CallPreVerifySignature s in
  match preVerifySignature B req with
  | Some err =>
      (JSON_error StatusBadRequest ("Invalid signature: " ++ err),
       proofGenerationErrors_Inc s)
  | None =>
      let assignment := assignment_of req in
      let s := record_call CallNewWitness s in
      match frontend_NewWitness B assignment with
      | None =>
          (JSON_error StatusInternalServerError "witness creation failed",
           proofGenerationErrors_Inc s)
      | Some witness =>
          let s := record_call CallProve s in
          match groth16_Prove B witness with
          | None =>
              (JSON_error StatusInternalServerError "proof generation failed",
               proofGenerationErrors_Inc s)
          | Some proof =>
              let s := proofGenerationDuration_Observe
                         (t_proofEnd clk - t_proofStart clk) s in
              match witness_Public B witness with
              | None =>
                  (JSON_error StatusInternalServerError
                     "public witness extraction failed", s)
              | Some publicWitness =>
                  let s := record_call CallVerify s in
                  if negb (groth16_Verify B proof publicWitness) then
                    (JSON_error StatusInternalServerError "generated proof is invalid",
                     proofGenerationErrors_Inc s)
                  else
                    let s := proofVerificationDuration_Observe
                               (t_verifyEnd clk - t_verifyStart clk) s in
                    let generationTime := Milliseconds (t_generated clk - t_start clk) in
                    let s := proofGenerationTotal_Inc s in
                    match json_Marshal B proof with
                    | None =>
                        (JSON_error StatusInternalServerError
                           "proof serialization failed", s)
                    | Some proofBytes =>
                        let publicInputs :=
                          [MinAmount req; RecipientKeyX req; RecipientKeyY req;
                           MaxBlockAge req; Sprintf_d (CurrentTime req)] in
                        let response :=
                          {| Proof := proofBytes;
                             PublicInputs := publicInputs;
                             GenerationTime := generationTime |} in
                        ({| status := StatusOK; body := ProofBody response |},
                         set_proofCache
                           (ProofCache_Set B (t_evict clk) (t_set clk) req response
                              (proofCache s)) s)
                    end
              end
          end
      end
  end.

(** [generateProofHandler]; [bound] is the outcome of [c.BindJSON(&req)]. *)
Definition generateProofHandler (B : Backend) (clk : Clock)
    (bound : option ProofRequest) (s : Server) : Response * Server :=
  match bound with
  | None =>
      (JSON_error StatusBadRequest "Invalid request format",
       proofGenerationErrors_Inc s)
  | Some req =>
      match validateProofRequest (t_validate clk) req with
      | Some err =>
          (JSON_error StatusBadRequest err, proofGenerationErrors_Inc s)
      | None =>
          match Get B (t_get clk) req (proofCache s) with
          | (Some cached, pc) =>
              ({| status := StatusOK; body := ProofBody cached |},
               set_proofCache pc s)
          | (None, _) => generateProof B clk req s
          end
      end
  end.

(** The server as [main] starts it: an empty cache of 1000 entries kept
    for an hour. *)
Definition initial_Server : Server :=
  {| proofCache := NewProofCache 1000 hour;
     proofGenerationErrors := 0;
     proofGenerationTotal := 0;
     proofGenerationDuration := [];
     proofVerificationDuration := [];
     calls := [] |}.

(** What the process does to its state: it serves requests, and the
    [cleanup] goroutine of the cache sweeps it. *)
Inductive step (B : Backend) : Server -> Server -> Prop :=
| step_request clk bound s :
    step B s (snd (generateProofHandler B clk bound s))
| step_cleanup now s :
    step B s (set_proofCache (cleanup now (proofCache s)) s).

Inductive reachable (B : Backend) : Server -> Prop :=
| reachable_init : reachable B initial_Server
| reachable_step s s' : reachable B s -> step B s s' -> reachable B s'.

(** ** A stand-in backend and sample requests

    A small implementation of the library interface on which the handler
    can be run: a signature is valid when its [S] is 1, a proof is the list
    of public values it was made for, and the cache key is the hashed data
    itself. *)
Definition public_values (w : PaymentCircuit.t Z) : list Z :=
  [PaymentCircuit.MinAmount w; PaymentCircuit.RecipientKeyX w;
   PaymentCircuit.RecipientKeyY w; PaymentCircuit.MaxBlockAge w;
   PaymentCircuit.CurrentTime w].

Definition toy_backend : Backend :=
  {| G16Proof := list Z;
     sha256_hex := fun data => data;
     RecipientKey := fun req => RecipientKeyX req ++ ":" ++ RecipientKeyY req ++ ":";
     big_undefined := fun _ => 0;
     MIMC_BN254 := fun writes => concat writes;
     PublicKey_Verify := fun _ sig _ =>
       (match snd sig with
        | [b] => Byte.eqb b Byte.x01
        | _ => false
        end, None);
     fr_SetString := fun s =>
       option_map (fun z => z mod ScalarField) (parse_unsigned s);
     mimc_Sum := fun xs => fold_right Z.add 0 xs mod ScalarField;
     eddsa_Verify := fun sig _ _ => (snd sig =? 1)%Z;
     groth16_prover := fun w => Some (public_values w);
     witness_Public := fun w => Some (public_values w);
     groth16_Verify := fun proof publicWitness => bool_decide (proof = publicWitness);
     json_Marshal := fun proof => Some (String.concat "," (map Sprintf_d proof)) |}.

(** A well-formed request made at Unix time 1700000000 for a payment of
    1500000 made 50 seconds earlier. *)
Definition sample_request : ProofRequest :=
  {| MinAmount := "1000000";
     RecipientKeyX := "12345678901234567890123456789012";
     RecipientKeyY := "98765432109876543210987654321098";
     MaxBlockAge := "60";
     CurrentTime := 1700000000;
     ActualAmount := "1500000";
     SenderKeyX := "11111111111111111111111111111111";
     SenderKeyY := "22222222222222222222222222222222";
     PaymentTime := 1699999950;
     SignatureR8X := "33333333333333333333333333333333";
     SignatureR8Y := "44444444444444444444444444444444";
     SignatureS := "1" |}.

Definition with_amounts (minAmount actualAmount : string) (req : ProofRequest)
  : ProofRequest :=
  {| MinAmount := minAmount;
     RecipientKeyX := RecipientKeyX req;
     RecipientKeyY := RecipientKeyY req;
     MaxBlockAge := MaxBlockAge req;
     CurrentTime := CurrentTime req;
     ActualAmount := actualAmount;
     SenderKeyX := SenderKeyX req;
     SenderKeyY := SenderKeyY req;
     PaymentTime := PaymentTime req;
     SignatureR8X := SignatureR8X req;
     SignatureR8Y := SignatureR8Y req;
     SignatureS := SignatureS req |}.

Definition with_sender (senderKeyX actualAmount : string) (req : ProofRequest)
  : ProofRequest :=
  {| MinAmount := MinAmount req;
     RecipientKeyX := RecipientKeyX req;
     RecipientKeyY := RecipientKeyY req;
     MaxBlockAge := MaxBlockAge req;
     CurrentTime := CurrentTime req;
     ActualAmount := actualAmount;
     SenderKeyX := senderKeyX;
     SenderKeyY := SenderKeyY req;
     PaymentTime := PaymentTime req;
     SignatureR8X := SignatureR8X req;
     SignatureR8Y := SignatureR8Y req;
     SignatureS := SignatureS req |}.

Definition with_signatureS (signatureS : string) (req : ProofRequest) : ProofRequest :=
  {| MinAmount := MinAmount req;
     RecipientKeyX := RecipientKeyX req;
     RecipientKeyY := RecipientKeyY req;
     MaxBlockAge := MaxBlockAge req;
     CurrentTime := CurrentTime req;
     ActualAmount := ActualAmount req;
     SenderKeyX := SenderKeyX req;
     SenderKeyY := SenderKeyY req;
     PaymentTime := PaymentTime req;
     SignatureR8X := SignatureR8X req;
     SignatureR8Y := SignatureR8Y req;
     SignatureS := signatureS |}.

Definition with_times (currentTime paymentTime : Z) (req : ProofRequest) : ProofRequest :=
  {| MinAmount := MinAmount req;
     RecipientKeyX := RecipientKeyX req;
     RecipientKeyY := RecipientKeyY req;
     MaxBlockAge := MaxBlockAge req;
     CurrentTime := currentTime;
     ActualAmount := ActualAmount req;
     SenderKeyX := SenderKeyX req;
     SenderKeyY := SenderKeyY req;
     PaymentTime := paymentTime;
     SignatureR8X := SignatureR8X req;
     SignatureR8Y := SignatureR8Y req;
     SignatureS := SignatureS req |}.

(** Every clock reading of a request taken at the same instant [t]. *)
Definition clock_at (t : Z) : Clock :=
  {| t_start := t; t_validate := t; t_get := t; t_proofStart := t;
     t_proofEnd := t; t_verifyStart := t; t_verifyEnd := t;
     t_generated := t; t_evict := t; t_set := t |}.

Definition sample_now : Z := 1700000000 * second.

(** A string of [n] nines. *)
Fixpoint nines (n : nat) : string :=
  match n with
  | O => ""
  | S n' => String "9" (nines n')
  end.

(** The entry [e] holds the serialization of a proof that the prover made
    for some witness and that [groth16.Verify] accepted against that
    witness's public part. *)
Definition sanity_verified (B : Backend) (proofBytes : string) : Prop :=
  exists w proof publicWitness,
    groth16_Prove B w = Some proof /\
    witness_Public B w = Some publicWitness /\
    groth16_Verify B proof publicWitness = true /\
    json_Marshal B proof = Some proofBytes.

Definition cache_verified (B : Backend) (pc : ProofCache) : Prop :=
  forall key e, cache pc !! key = Some e -> sanity_verified B (CachedProof.Proof e).

(** The response a cache entry is served as, and the entry after the hit. *)
Definition response_of_entry (e : CachedProof.t) : ProofResponse :=
  {| Proof := CachedProof.Proof e;
     PublicInputs := CachedProof.PublicInputs e;
     GenerationTime := 0 |}.

Definition touched (e : CachedProof.t) : CachedProof.t :=
  CachedProof.mk (CachedProof.Proof e) (CachedProof.PublicInputs e)
    (CachedProof.GeneratedAt e) (wrap64 (CachedProof.AccessCount e + 1)).

(** The response to a freshly generated proof for [req]. *)
Definition fresh_response (clk : Clock) (req : ProofRequest) (proofBytes : string)
  : ProofResponse :=
  {| Proof := proofBytes;
     PublicInputs := [MinAmount req; RecipientKeyX req; RecipientKeyY req;
                      MaxBlockAge req; Sprintf_d (CurrentTime req)];
     GenerationTime := Milliseconds (t_generated clk - t_start clk) |}.

(** The solved values of a request made at 1700000000 for a payment made
    exactly [maxBlockAge = 60] seconds earlier. *)
Definition boundary_witness : PaymentCircuit.t Z :=
  PaymentCircuit.mk 1000000 12345678901234567890123456789012
    98765432109876543210987654321098 60 1700000000 1500000
    11111111111111111111111111111111 22222222222222222222222222222222
    1699999940 33333333333333333333333333333333
    44444444444444444444444444444444 1.

(** The solved values of [sample_request] when it asks for at least
    2000000 and pays 1000000. *)
Definition insufficient_witness : PaymentCircuit.t Z :=
  PaymentCircuit.mk 2000000 12345678901234567890123456789012
    98765432109876543210987654321098 60 1700000000 1000000
    11111111111111111111111111111111 22222222222222222222222222222222
    1699999950 33333333333333333333333333333333
    44444444444444444444444444444444 1.

(** The server after it has proved [sample_request], the entry this left
    in the cache, and the clock of a request made 30 seconds later. *)
Definition sample_server : Server :=
  snd (generateProofHandler toy_backend (clock_at sample_now) (Some sample_request)
         initial_Server).

Definition sample_entry : CachedProof.t :=
  CachedProof.mk
    "1000000,12345678901234567890123456789012,98765432109876543210987654321098,60,1700000000"
    ["1000000"; "12345678901234567890123456789012";
     "98765432109876543210987654321098"; "60"; "1700000000"]
    sample_now 1.

Definition later_clock : Clock := clock_at (sample_now + 30 * second).

(** A second payer's request for the same public claim, made 30 seconds
    after [sample_request]. *)
Definition second_request : ProofRequest :=
  with_times 1700000030 1700000020 (with_sender "55555555" "1700000" sample_request).

(** ** The chain of [main] in front of the handler
    ([rateLimitMiddleware], [metricsMiddleware]) *)

Definition StatusTooManyRequests : Z := 429.

(** What the client of [POST /generate-proof] receives: the body of the
    rate limiter ([gin.H] with an "error" and a "message"), or the
    handler's response. *)
Inductive Reply :=
| RateLimited (err message : string)
| Handled (r : Response).

Definition Reply_status (r : Reply) : Z :=
  match r with
  | RateLimited _ _ => StatusTooManyRequests
  | Handled r => status r
  end.

(** The globals of the process: the handler's state, the [rateLimiter] and
    the [activeRequests] gauge. *)
Record Process := {
  server : Server;
  rateLimiter : RateLimiter;
  activeRequests : Z
}.

(** [rateLimitMiddleware]: the reply with which it aborts the chain, if it
    does. *)
Definition rateLimitMiddleware (created now : Z) (clientIP : string) (rl : RateLimiter)
  : option (option Reply * RateLimiter) :=
  match Allow created now clientIP rl with
  | None => None
  | Some (true, rl') => Some (None, rl')
  | Some (false, rl') =>
      Some (Some (RateLimited "Rate limit exceeded"
                    "Maximum 10 requests per minute. Please try again later."),
            rl')
  end.

(** [POST /generate-proof] as [main] registers it: [rateLimitMiddleware],
    then [metricsMiddleware] ([activeRequests.Inc()], the handler, and the
    deferred [activeRequests.Dec()]). *)
Definition POST_generate_proof (B : Backend) (created now : Z) (clk : Clock)
    (clientIP : string) (bound : option ProofRequest) (p : Process)
  : option (Reply * Process) :=
  match rateLimitMiddleware created now clientIP (rateLimiter p) with
  | None => None
  | Some (Some reply, rl') =>
      Some (reply,
            {| server := server p; rateLimiter := rl';
               activeRequests := activeRequests p |})
  | Some (None, rl') =>
      let active := activeRequests p + 1 in
      let result := generateProofHandler B clk bound (server p) in
      Some (Handled (fst result),
            {| server := snd result; rateLimiter := rl';
               activeRequests := active - 1 |})
  end.

(** The states of a limiter made by [NewRateLimiter maxRate period]: calls
    of [Allow] that return, and sweeps of its [cleanup] goroutine. *)
Inductive RateLimiter_reachable (maxRate period : Z) : RateLimiter -> Prop :=
| RateLimiter_reachable_new :
    RateLimiter_reachable maxRate period (NewRateLimiter maxRate period)
| RateLimiter_reachable_Allow created now ip rl ok rl' :
    RateLimiter_reachable maxRate period rl ->
    Allow created now ip rl = Some (ok, rl') ->
    RateLimiter_reachable maxRate period rl'
| RateLimiter_reachable_cleanup now rl :
    RateLimiter_reachable maxRate period rl ->
    RateLimiter_reachable maxRate period (RateLimiter_cleanup now rl).

(** The calls of one request, in the order the handler makes them. *)
Definition pipeline : list Call :=
  [CallPreVerifySignature; CallNewWitness; CallProve; CallVerify].

(** A cache entry without its access count. *)
Definition entry_content (e : CachedProof.t) : string * list string * Z :=
  (CachedProof.Proof e, CachedProof.PublicInputs e, CachedProof.GeneratedAt e).

(** ** The amount check of the circom circuits

    [GreaterEqThan(n)] of circomlib's [comparators.circom]:
    [lt = LessThan(n); lt.in[0] <== in[1]; lt.in[1] <== in[0] + 1]. *)
Definition GreaterEqThan (n : Z) (in0 in1 : Z) : option Z :=
  LessThan n in1 ((in0 + 1) mod ScalarField).

(** [amountCheck = GreaterEqThan(64); amountCheck.in[0] <== actualAmount;
    amountCheck.in[1] <== minAmount; amountCheck.out === 1]. *)
Definition circom_amountCheck (actualAmount minAmount : Z) : bool :=
  match GreaterEqThan 64 actualAmount minAmount with
  | Some out => (out =? 1)%Z
  | None => false
  end.

(** ** The request hash of the proof database ([generateRequestHash])

    The [ProofRequest] that [database.go] formats has the fields of the
    SDK's request, not those of [main.go]; each field has the type its
    format verb takes. *)
Module DatabaseRequest.
Record t := mk {
  MinAmount : string;
  RecipientKey : string;
  MaxBlockAge : string;
  CurrentTime : Z;
  ActualAmount : string;
  SenderKey : string;
  TxHash : string;
  PaymentTime : Z;
  Signature : string
}.
End DatabaseRequest.

(** [fmt.Sprintf("%x", []byte(data))]: two lower-case hexadecimal digits
    per byte. *)
Definition hex_digit (n : N) : ascii :=
  if (n <? 10)%N then ascii_of_N (48 + n) else ascii_of_N (87 + n).

Fixpoint hex_of_bytes (s : string) : string :=
  match s with
  | EmptyString => EmptyString
  | String c rest =>
      String (hex_digit (N_of_ascii c / 16))
        (String (hex_digit (N_of_ascii c mod 16)) (hex_of_bytes rest))
  end.

(** [s[:n]], which panics ([None]) when [n] exceeds [len(s)]. *)
Definition slice_to (n : nat) (s : string) : option string :=
  if (n <=? String.length s)%nat then Some (String.substring 0 n s) else None.

(** The string that [generateRequestHash] formats with
    ["%s:%s:%s:%d:%s:%s:%s:%d:%s"]. *)
Definition request_data (req : DatabaseRequest.t) : string :=
  DatabaseRequest.MinAmount req ++ ":" ++
  DatabaseRequest.RecipientKey req ++ ":" ++
  DatabaseRequest.MaxBlockAge req ++ ":" ++
  Sprintf_d (DatabaseRequest.CurrentTime req) ++ ":" ++
  DatabaseRequest.ActualAmount req ++ ":" ++
  DatabaseRequest.SenderKey req ++ ":" ++
  DatabaseRequest.TxHash req ++ ":" ++
  Sprintf_d (DatabaseRequest.PaymentTime req) ++ ":" ++
  DatabaseRequest.Signature req.

Definition generateRequestHash (req : DatabaseRequest.t) : option string :=
  let data := request_data req in
  let hash := hex_of_bytes data in
  slice_to 64 hash.

(** ** API-key authentication ([authMiddleware] of [auth.go]) *)

Definition StatusUnauthorized : Z := 401.

(** The first space of [s] and what is on either side of it. *)
Fixpoint cut_space (s : string) : option (string * string) :=
  match s with
  | EmptyString => None
  | String c rest =>
      if Ascii.eqb c " " then Some (EmptyString, rest)
      else match cut_space rest with
           | Some (before, after) => Some (String c before, after)
           | None => None
           end
  end.

(** [strings.SplitN(s, " ", 2)] *)
Definition SplitN2 (s : string) : list string :=
  match cut_space s with
  | Some (before, after) => [before; after]
  | None => [s]
  end.

(** [subtle.ConstantTimeCompare] on the bytes of two strings. *)
Definition ConstantTimeCompare (x y : string) : Z :=
  if String.eqb x y then 1 else 0.

Inductive AuthOutcome :=
| AuthNext
| AuthAbort (code : Z) (msg : string).

(** [authMiddleware]: [apiKey] is [os.Getenv("API_KEY")], [authHeader] is
    [c.GetHeader("Authorization")] (empty when the header is absent). *)
Definition authMiddleware (apiKey authHeader : string) : AuthOutcome :=
  if String.eqb apiKey "" then AuthNext
  else if String.eqb authHeader "" then
    AuthAbort StatusUnauthorized "Missing Authorization header"
  else
    match SplitN2 authHeader with
    | [scheme; providedKey] =>
        if negb (String.eqb scheme "Bearer") then
          AuthAbort StatusUnauthorized
            "Invalid Authorization header format. Expected: 'Bearer <token>'"
        else if negb (ConstantTimeCompare providedKey apiKey =? 1)%Z then
          AuthAbort StatusUnauthorized "Invalid API key"
        else AuthNext
    | _ =>
        AuthAbort StatusUnauthorized
          "Invalid Authorization header format. Expected: 'Bearer <token>'"
    end.

(** ** Sample states for the further properties *)

(** The counters of a server state, as one invariant. *)
Definition counters_consistent (s : Server) : Prop :=
  Z.of_nat (size (cache (proofCache s))) <= proofGenerationTotal s /\
  proofGenerationTotal s = Z.of_nat (length (proofVerificationDuration s)) /\
  (length (proofVerificationDuration s) <= length (proofGenerationDuration s))%nat /\
  0 <= proofGenerationErrors s.

(** A cache holding [sample_entry] and an older entry that was served
    five times. *)
Definition two_entry_cache : ProofCache :=
  {| cache := <["old" := CachedProof.mk "p" [] (sample_now - 10) 5]>
                (<["new" := sample_entry]> ∅);
     maxSize := 2; ttl := hour |}.

(** The limiter of [main] after the eleven calls of one client. *)
Definition busy_limiter : RateLimiter :=
  match AllowRun [(0, 0); (1, 1); (2, 2); (3, 3); (4, 4); (5, 5); (6, 6); (7, 7);
                  (8, 8); (9, 9); (10, 10)] "203.0.113.7" (NewRateLimiter 10 minute) with
  | Some (_, rl) => rl
  | None => NewRateLimiter 10 minute
  end.

(** The process of [main] when the client of [busy_limiter] has spent its
    ten requests. *)
Definition busy_process : Process :=
  {| server := sample_server; rateLimiter := busy_limiter; activeRequests := 0 |}.

(** The solved values of [sample_request] with the payment dated 100
    seconds after [currentTime]. *)
Definition future_witness : PaymentCircuit.t Z :=
  PaymentCircuit.mk 1000000 12345678901234567890123456789012
    98765432109876543210987654321098 60 1700000000 1500000
    11111111111111111111111111111111 22222222222222222222222222222222
    1700000100 33333333333333333333333333333333
    44444444444444444444444444444444 1.

(** Two requests of different payers, for different amounts and times,
    to one recipient. *)
Definition database_request_1 : DatabaseRequest.t :=
  DatabaseRequest.mk "1000000" "55555555555555555555555555555555" "60" 1700000000
    "1500000" "11111111111111111111111111111111" "tx1" 1699999950 "sig1".

Definition database_request_2 : DatabaseRequest.t :=
  DatabaseRequest.mk "1000000" "55555555555555555555555555555555" "300" 1700000500
    "9000000" "22222222222222222222222222222222" "tx2" 1700000400 "sig2".

(** Requests for the minimum amounts 1 and 12 whose recipient keys begin
    with 23 and 3: the data hashed for their cache keys is the same. *)
Definition split_request_1 : ProofRequest :=
  {| MinAmount := "1"; RecipientKeyX := "23"; RecipientKeyY := "7";
     MaxBlockAge := "60"; CurrentTime := 1700000000;
     ActualAmount := "1500000"; SenderKeyX := "11"; SenderKeyY := "22";
     PaymentTime := 1699999950;
     SignatureR8X := "33"; SignatureR8Y := "44"; SignatureS := "1" |}.

Definition split_request_2 : ProofRequest :=
  {| MinAmount := "12"; RecipientKeyX := "3"; RecipientKeyY := "7";
     MaxBlockAge := "60"; CurrentTime := 1700000000;
     ActualAmount := "1500000"; SenderKeyX := "11"; SenderKeyY := "22";
     PaymentTime := 1699999950;
     SignatureR8X := "33"; SignatureR8Y := "44"; SignatureS := "1" |}.

(** * Properties *)

(** ** Validation *)

Lemma isValidNumeric_spec (s : string) :
  isValidNumeric s = true <-> s <> "" /\ all_digits s = true.
Proof.
  unfold isValidNumeric.
  destruct (String.eqb_spec s ""); split; intros H; try discriminate; tauto.
Qed.

(** The positivity test only ever fires on the literal ["0"]: a leading
    ['-'] has already failed [isValidNumeric]. *)
Lemma positivity_rejection_is_literal_zero (now : Z) (req : ProofRequest) :
  validateProofRequest now req = Some "actualAmount must be positive" ->
  ActualAmount req = "0".
Proof.
  intros H. unfold validateProofRequest in H. cbv zeta in H.
  repeat match type of H with
         | (if ?c then _ else _) = _ => destruct c eqn:?; try discriminate H
         end.
  match goal with
  | Hp : (String.eqb (ActualAmount req) "0" || _) = true |- _ => rename Hp into HP
  end.
  match goal with
  | Hn : negb (isValidNumeric (ActualAmount req)) = false |- _ => rename Hn into HN
  end.
  apply orb_true_iff in HP. destruct HP as [HP | HP].
  - apply String.eqb_eq; assumption.
  - exfalso.
    apply negb_false_iff, isValidNumeric_spec in HN. destruct HN as [_ HN].
    destruct (ActualAmount req) as [| c rest]; simpl in HP, HN; try discriminate.
    apply Ascii.eqb_eq in HP. subst c. simpl in HN. discriminate.
Qed.

(** C10. The positivity check of [validateProofRequest] is textual: a
    request whose [actualAmount] is ["00"], and one whose [minAmount] is
    ["00"], pass the whole validation although the amount they denote is
    zero. *)
Theorem C10_zero_amount_with_two_digits_passes_validation :
  (exists now req,
      ActualAmount req = "00" /\
      SetString10 (ActualAmount req) = Some 0 /\
      validateProofRequest now req = None) /\
  (exists now req,
      MinAmount req = "00" /\
      SetString10 (MinAmount req) = Some 0 /\
      validateProofRequest now req = None).
Proof.
  split.
  - exists sample_now, (with_amounts "1000000" "00" sample_request).
    repeat split; reflexivity.
  - exists sample_now, (with_amounts "00" "1500000" sample_request).
    repeat split; reflexivity.
Qed.

(** ** Decimal printing and parsing *)

Lemma decimal_digit (d : N) :
  (d < 10)%N ->
  not_digit (ascii_of_N (48 + d)) = false /\
  digit_value (ascii_of_N (48 + d)) = Z.of_N d.
Proof.
  intros Hd. unfold not_digit, digit_value.
  rewrite N_ascii_embedding by lia.
  split; [| lia].
  apply orb_false_iff. split; [apply N.ltb_ge | apply N.ltb_ge]; lia.
Qed.

Lemma parse_decimal_be (fuel : nat) :
  forall (n : N) (acc : string),
    (n < 2 ^ N.of_nat fuel)%N ->
    parse_digits 0 (decimal_be fuel n acc) = parse_digits (Z.of_N n) acc.
Proof.
  induction fuel as [| fuel IH]; intros n acc Hn.
  - simpl in Hn. assert (n = 0%N) by lia. subst. reflexivity.
  - cbn [decimal_be]. destruct (N.eqb_spec n 0) as [-> | Hnz]; [reflexivity |].
    rewrite IH.
    + cbn [parse_digits].
      destruct (decimal_digit (n mod 10)) as [Hd Hv]; [apply N.mod_lt; lia |].
      rewrite Hd, Hv. f_equal.
      rewrite (N.div_mod n 10) at 3 by lia. lia.
    + rewrite Nat2N.inj_succ, N.pow_succ_r' in Hn.
      apply N.Div0.div_lt_upper_bound. lia.
Qed.

Lemma decimal_be_nonempty (fuel : nat) :
  forall (n : N) (c : ascii) (acc : string), decimal_be fuel n (String c acc) <> "".
Proof.
  induction fuel as [| fuel IH]; intros n c acc; cbn [decimal_be]; [discriminate |].
  destruct (n =? 0)%N; [discriminate | apply IH].
Qed.

Lemma parse_unsigned_Sprintf_d (z : Z) :
  0 <= z -> parse_unsigned (Sprintf_d z) = Some z.
Proof.
  intros Hz. unfold Sprintf_d.
  destruct (Z.ltb_spec z 0) as [| _]; [lia |].
  destruct (N.eqb_spec (Z.abs_N z) 0) as [E | Hnz].
  - assert (z = 0) by lia. subst. reflexivity.
  - assert (Hp : parse_digits 0 (decimal_be (N.to_nat (N.size (Z.abs_N z))) (Z.abs_N z) "")
                 = Some z).
    { rewrite parse_decimal_be.
      - simpl. f_equal. lia.
      - rewrite N2Nat.id. apply N.size_gt. }
    destruct (decimal_be (N.to_nat (N.size (Z.abs_N z))) (Z.abs_N z) "") eqn:E;
      [| exact Hp].
    exfalso. revert E. destruct (N.to_nat (N.size (Z.abs_N z))) as [| f] eqn:Ef.
    + pose proof (N.size_gt (Z.abs_N z)) as Hs.
      assert (N.size (Z.abs_N z) = 0%N) as Hs0 by lia. rewrite Hs0 in Hs. simpl in Hs. lia.
    + cbn [decimal_be]. destruct (N.eqb_spec (Z.abs_N z) 0); [contradiction |].
      apply decimal_be_nonempty.
Qed.

Lemma parse_unsigned_starts_with_digit (c : ascii) (s : string) (z : Z) :
  parse_unsigned (String c s) = Some z -> not_digit c = false.
Proof.
  unfold parse_unsigned. cbn [parse_digits]. destruct (not_digit c); [discriminate | reflexivity].
Qed.

(** [big.Int.SetString(_, 10)] reads back what [%d] prints. *)
Lemma SetString10_Sprintf_d (z : Z) : SetString10 (Sprintf_d z) = Some z.
Proof.
  destruct (Z.lt_ge_cases z 0) as [Hneg | Hpos].
  - pose proof (parse_unsigned_Sprintf_d (- z) ltac:(lia)) as Hp.
    unfold Sprintf_d in *.
    destruct (Z.ltb_spec z 0) as [_ |]; [| lia].
    destruct (Z.ltb_spec (- z) 0) as [| _]; [lia |].
    rewrite Zabs2N.inj_opp in Hp.
    unfold SetString10. rewrite Hp. simpl. f_equal. lia.
  - pose proof (parse_unsigned_Sprintf_d z Hpos) as Hp.
    unfold SetString10.
    destruct (Sprintf_d z) as [| c s] eqn:E; [exact Hp |].
    pose proof (parse_unsigned_starts_with_digit c s z Hp) as Hd.
    destruct (Ascii.eqb_spec c "-") as [-> | Hm]; [discriminate Hd |].
    destruct (Ascii.eqb_spec c "+") as [-> | Hpl]; [discriminate Hd |].
    destruct c as [[] [] [] [] [] [] [] []]; try exact Hp; congruence.
Qed.

Lemma Sprintf_d_inj (a b : Z) : Sprintf_d a = Sprintf_d b -> a = b.
Proof.
  intros H. pose proof (SetString10_Sprintf_d a) as Ha.
  rewrite H, SetString10_Sprintf_d in Ha. congruence.
Qed.

(** ** The first step after a cache miss *)

(** After a cache miss the handler's first call is [preVerifySignature]. *)
Lemma generateProof_calls (B : Backend) (clk : Clock) (req : ProofRequest) (s : Server) :
  exists rest,
    calls (snd (generateProof B clk req s))
    = (calls s ++ CallPreVerifySignature :: rest)%list.
Proof.
  unfold generateProof.
  repeat case_match; simpl; rewrite <- ?app_assoc; simpl; eexists; reflexivity.
Qed.

(** C3. [validateProofRequest] checks digits for [minAmount],
    [actualAmount] and [maxBlockAge] only, and length for [minAmount] and
    the recipient key only: a request whose [senderKeyX] is ["abc"] and
    whose [actualAmount] has 101 digits passes validation and, on a cache
    miss, goes on to signature pre-verification, whatever the backend. *)
Theorem C3_validation_accepts_non_numeric_and_long_fields :
  let req := with_sender "abc" (nines 101) sample_request in
  isValidNumeric (SenderKeyX req) = false /\
  len (ActualAmount req) = 101 /\
  validateProofRequest sample_now req = None /\
  forall B : Backend,
    exists rest,
      calls (snd (generateProofHandler B (clock_at sample_now) (Some req) initial_Server))
      = CallPreVerifySignature :: rest.
Proof.
  intros req. repeat split; try reflexivity.
  intros B. unfold generateProofHandler.
  replace (validateProofRequest (t_validate (clock_at sample_now)) req)
    with (@None error) by reflexivity.
  unfold Get. simpl. rewrite lookup_empty.
  destruct (generateProof_calls B (clock_at sample_now) req initial_Server) as [rest H].
  exists rest. exact H.
Qed.

(** ** The recency constraint *)

Lemma ScalarField_gt_2_65 : 2 ^ 65 < ScalarField.
Proof. reflexivity. Qed.

(** [Define] compares with [<=]. *)
Lemma Define_time_check_spec (c : PaymentCircuit.t Z) :
  0 <= PaymentCircuit.PaymentTime c <= PaymentCircuit.CurrentTime c ->
  PaymentCircuit.CurrentTime c < ScalarField ->
  (Define_time_check c = true <->
   PaymentCircuit.CurrentTime c - PaymentCircuit.PaymentTime c
   <= PaymentCircuit.MaxBlockAge c).
Proof.
  intros Hle Hlt. unfold Define_time_check, api_AssertIsLessOrEqual, api_Sub.
  rewrite Z.mod_small by lia. apply Z.leb_le.
Qed.

(** The circom circuits compare with [<], on 64-bit operands. *)
Lemma circom_timeCheck_spec (currentTime paymentTime maxBlockAge : Z) :
  0 <= paymentTime <= currentTime ->
  currentTime < 2 ^ 64 ->
  0 <= maxBlockAge < 2 ^ 64 ->
  (circom_timeCheck currentTime paymentTime maxBlockAge = true <->
   currentTime - paymentTime < maxBlockAge).
Proof.
  intros Hp Hc Hm. pose proof ScalarField_gt_2_65 as Hq.
  unfold circom_timeCheck, LessThan.
  rewrite !Z.shiftl_1_l.
  rewrite (Z.mod_small (currentTime - paymentTime)) by lia.
  set (d := currentTime - paymentTime).
  assert (Hd : 0 <= d < 2 ^ 64) by (unfold d; lia).
  change (2 ^ (64 + 1)) with (2 ^ 65).
  rewrite (Z.mod_small (d + 2 ^ 64 - maxBlockAge)) by lia.
  destruct (Z.ltb_spec (d + 2 ^ 64 - maxBlockAge) (2 ^ 65)) as [_ | Hge]; [| lia].
  rewrite Z.testbit_eqb by lia.
  destruct (Z.lt_ge_cases d maxBlockAge) as [Hlt | Hge].
  - rewrite (Z.div_small (d + 2 ^ 64 - maxBlockAge)) by lia.
    simpl. split; [intros _; exact Hlt | reflexivity].
  - replace (d + 2 ^ 64 - maxBlockAge) with ((d - maxBlockAge) + 1 * 2 ^ 64) by lia.
    rewrite Z.div_add by lia.
    rewrite (Z.div_small (d - maxBlockAge)) by lia.
    simpl. split; [discriminate | lia].
Qed.

(** C1. At [currentTime - paymentTime = maxBlockAge] the time check of
    [Define] holds (it asserts [<=]) and, with a valid signature, the
    handler answers 200 with a proof, whereas the [LessThan(64)] check of
    the circom circuits rejects the same values. *)
Theorem C1_Define_accepts_age_equal_to_maxBlockAge :
  let req := with_times 1700000000 1699999940 sample_request in
  frontend_NewWitness toy_backend (assignment_of req) = Some boundary_witness /\
  PaymentCircuit.CurrentTime boundary_witness - PaymentCircuit.PaymentTime boundary_witness
  = PaymentCircuit.MaxBlockAge boundary_witness /\
  Define_time_check boundary_witness = true /\
  status (fst (generateProofHandler toy_backend (clock_at sample_now) (Some req)
                 initial_Server)) = StatusOK /\
  circom_timeCheck (PaymentCircuit.CurrentTime boundary_witness)
    (PaymentCircuit.PaymentTime boundary_witness)
    (PaymentCircuit.MaxBlockAge boundary_witness) = false.
Proof. vm_compute. repeat split; reflexivity. Qed.

(** ** The rate limiter *)

Lemma wrap64_small (z : Z) : - 2 ^ 63 <= z < 2 ^ 63 -> wrap64 z = z.
Proof. intros H. unfold wrap64. rewrite Z.mod_small; lia. Qed.

(** Within one period of the bucket's last refill, [Allow] only consumes. *)
Lemma Allow_within_period (created now : Z) (ip : string) (rl : RateLimiter) :
  let b := match buckets rl !! ip with
           | Some b => b
           | None => {| tokens := maxRate rl; lastRefill := created |}
           end in
  0 < period rl ->
  0 <= now - lastRefill b < period rl ->
  Allow created now ip rl
  = Some ((0 <? tokens b)%Z,
          set_buckets
            (<[ip := {| tokens := if (0 <? tokens b)%Z then tokens b - 1 else tokens b;
                        lastRefill := lastRefill b |}]> (buckets rl)) rl).
Proof.
  intros b Hp He. unfold Allow. fold b.
  destruct (Z.eqb_spec (period rl) 0) as [E | _]; [lia |].
  rewrite Z.quot_small by lia.
  rewrite (wrap64_small 0) by lia. rewrite Z.mul_0_l.
  rewrite (wrap64_small 0) by lia. simpl.
  destruct (0 <? tokens b)%Z; [reflexivity |].
  destruct b; reflexivity.
Qed.

Lemma AllowRun_within_period (ip : string) (T0 : Z) (clock : list (Z * Z)) :
  forall (rl : RateLimiter) (k : Z),
    buckets rl !! ip = Some {| tokens := k; lastRefill := T0 |} ->
    0 < period rl ->
    Forall (fun cn => 0 <= snd cn - T0 < period rl) clock ->
    exists rl',
      AllowRun clock ip rl = Some (drain k (length clock), rl') /\
      buckets rl' !! ip
      = Some {| tokens := remaining k (length clock); lastRefill := T0 |} /\
      maxRate rl' = maxRate rl /\ period rl' = period rl.
Proof.
  induction clock as [| [created now] clock IH]; intros rl k Hb Hp Hall.
  - exists rl. simpl. auto.
  - inversion Hall as [| ? ? Hhd Htl]; subst. simpl in Hhd.
    pose proof (Allow_within_period created now ip rl) as HA.
    rewrite Hb in HA. simpl in HA. specialize (HA Hp Hhd).
    set (k' := if (0 <? k)%Z then k - 1 else k) in *.
    set (rl1 := set_buckets (<[ip := {| tokens := k'; lastRefill := T0 |}]> (buckets rl)) rl)
      in *.
    assert (Hb1 : buckets rl1 !! ip = Some {| tokens := k'; lastRefill := T0 |})
      by (unfold rl1; simpl; apply lookup_insert_eq).
    destruct (IH rl1 k' Hb1 Hp Htl) as (rl2 & Hrun & Hb2 & Hm2 & Hp2).
    exists rl2. simpl. rewrite HA, Hrun. auto.
Qed.

Lemma drain_full (n : nat) :
  drain (Z.of_nat n) (n + 1) = (repeat true n ++ [false])%list.
Proof.
  induction n as [| n IH].
  - reflexivity.
  - change (S n + 1)%nat with (S (n + 1)). cbn [drain repeat app].
    destruct (Z.ltb_spec 0 (Z.of_nat (S n))) as [_ | H]; [| lia].
    replace (Z.of_nat (S n) - 1) with (Z.of_nat n) by lia.
    rewrite IH. reflexivity.
Qed.

Lemma remaining_full (n : nat) : remaining (Z.of_nat n) (n + 1) = 0.
Proof.
  induction n as [| n IH].
  - reflexivity.
  - change (S n + 1)%nat with (S (n + 1)). cbn [remaining].
    destruct (Z.ltb_spec 0 (Z.of_nat (S n))) as [_ | H]; [| lia].
    replace (Z.of_nat (S n) - 1) with (Z.of_nat n) by lia.
    exact IH.
Qed.

(** A call on a client without a bucket behaves as a call on the bucket
    that [Allow] creates for it. *)
Lemma Allow_fresh (created now : Z) (ip : string) (rl : RateLimiter) :
  buckets rl !! ip = None ->
  Allow created now ip rl
  = Allow created now ip
      (set_buckets (<[ip := {| tokens := maxRate rl; lastRefill := created |}]> (buckets rl))
         rl).
Proof.
  intros Hn. unfold Allow. simpl. rewrite Hn, lookup_insert_eq.
  rewrite !insert_insert_eq. reflexivity.
Qed.

(** An empty bucket is refilled to [maxRate] once a period has elapsed. *)
Lemma Allow_after_period (created now : Z) (ip : string) (rl : RateLimiter) (T0 : Z) :
  buckets rl !! ip = Some {| tokens := 0; lastRefill := T0 |} ->
  0 < maxRate rl ->
  0 < period rl ->
  period rl <= now - T0 ->
  Z.quot (now - T0) (period rl) * maxRate rl < 2 ^ 63 ->
  exists rl', Allow created now ip rl = Some (true, rl').
Proof.
  intros Hb Hm Hp He Hov. unfold Allow. rewrite Hb. simpl.
  destruct (Z.eqb_spec (period rl) 0) as [E | _]; [lia |].
  set (q := Z.quot (now - T0) (period rl)) in *.
  assert (Hq : 1 <= q).
  { unfold q. rewrite Z.quot_div_nonneg by lia.
    apply Z.div_le_lower_bound; lia. }
  assert (Hq63 : q < 2 ^ 63) by nia.
  rewrite (wrap64_small q) by lia.
  rewrite (wrap64_small (q * maxRate rl)) by nia.
  destruct (Z.ltb_spec 0 (q * maxRate rl)) as [_ | H]; [| nia].
  cbn [tokens lastRefill].
  rewrite ?Z.add_0_l, ?(wrap64_small (q * maxRate rl)) by nia.
  destruct (Z.ltb_spec (maxRate rl) (q * maxRate rl)) as [_ | _].
  - destruct (Z.ltb_spec 0 (maxRate rl)) as [_ | H]; [| lia]. eexists; reflexivity.
  - destruct (Z.ltb_spec 0 (q * maxRate rl)) as [_ | H]; [| nia]. eexists; reflexivity.
Qed.

(** C6. A client without a bucket, under a limiter of capacity [n >= 1]
    and a positive period: of [n + 1] calls made less than one period after
    the first, the first [n] are allowed and the last is denied; a later
    call made a full period or more after the first is allowed again
    (provided the 64-bit refill product does not overflow). *)
Theorem C6_token_bucket_burst_then_refill
    (n : nat) (ip : string) (rl : RateLimiter) (created0 now0 : Z) (clock : list (Z * Z)) :
  buckets rl !! ip = None ->
  maxRate rl = Z.of_nat n ->
  (0 < n)%nat ->
  0 < period rl ->
  length clock = n ->
  Forall (fun cn => 0 <= snd cn - created0 < period rl) ((created0, now0) :: clock) ->
  exists rl',
    AllowRun ((created0, now0) :: clock) ip rl = Some ((repeat true n ++ [false])%list, rl') /\
    forall created now,
      period rl <= now - created0 ->
      Z.quot (now - created0) (period rl) * Z.of_nat n < 2 ^ 63 ->
      exists rl'', Allow created now ip rl' = Some (true, rl'').
Proof.
  intros Hnone Hmax Hn Hp Hlen Hall.
  set (rl0 := set_buckets
                (<[ip := {| tokens := maxRate rl; lastRefill := created0 |}]> (buckets rl)) rl).
  assert (Hb0 : buckets rl0 !! ip = Some {| tokens := Z.of_nat n; lastRefill := created0 |}).
  { unfold rl0. simpl. rewrite lookup_insert_eq, Hmax. reflexivity. }
  destruct (AllowRun_within_period ip created0 ((created0, now0) :: clock) rl0
              (Z.of_nat n) Hb0 Hp Hall)
    as (rl' & Hrun & Hb' & Hm' & Hp').
  exists rl'. split.
  - cbn [AllowRun] in Hrun |- *. rewrite (Allow_fresh created0 now0 ip rl Hnone).
    fold rl0. rewrite Hrun. cbn [length]. rewrite Hlen.
    replace (S n) with (n + 1)%nat by lia. rewrite drain_full. reflexivity.
  - intros created now He Hov.
    cbn [length] in Hb'. rewrite Hlen in Hb'.
    replace (S n) with (n + 1)%nat in Hb' by lia. rewrite remaining_full in Hb'.
    apply (Allow_after_period created now ip rl' created0 Hb').
    + rewrite Hm'. unfold rl0. simpl. lia.
    + rewrite Hp'. exact Hp.
    + rewrite Hp'. exact He.
    + rewrite Hp', Hm'. unfold rl0. simpl. rewrite Hmax. exact Hov.
Qed.

(** ** The proof cache *)

Lemma Get_hit (B : Backend) (now : Z) (req : ProofRequest) (pc : ProofCache)
    (e : CachedProof.t) :
  cache pc !! generateCacheKey B req = Some e ->
  now - CachedProof.GeneratedAt e <= ttl pc ->
  Get B now req pc
  = (Some (response_of_entry e),
     set_cache (<[generateCacheKey B req := touched e]> (cache pc)) pc).
Proof.
  intros He Hfresh. unfold Get. rewrite He.
  destruct (Z.ltb_spec (ttl pc) (now - CachedProof.GeneratedAt e)); [lia | reflexivity].
Qed.

Lemma Get_Some_inv (B : Backend) (now : Z) (req : ProofRequest) (pc pc' : ProofCache)
    (r : ProofResponse) :
  Get B now req pc = (Some r, pc') ->
  exists e,
    cache pc !! generateCacheKey B req = Some e /\
    now - CachedProof.GeneratedAt e <= ttl pc /\
    r = response_of_entry e /\
    pc' = set_cache (<[generateCacheKey B req := touched e]> (cache pc)) pc.
Proof.
  unfold Get. destruct (cache pc !! generateCacheKey B req) as [e |]; [| discriminate].
  destruct (Z.ltb_spec (ttl pc) (now - CachedProof.GeneratedAt e)) as [| Hle];
    [discriminate |].
  intros Heq. inversion Heq; subst. exists e. repeat split. lia.
Qed.

Lemma evictLRU_lookup (now : Z) (pc : ProofCache) (key : string) (e : CachedProof.t) :
  cache (evictLRU now pc) !! key = Some e -> cache pc !! key = Some e.
Proof.
  unfold evictLRU. destruct (String.eqb _ ""); [tauto |]. simpl.
  intros Hl. apply lookup_delete_Some in Hl. tauto.
Qed.

Lemma Set_lookup (B : Backend) (evictNow now : Z) (req : ProofRequest)
    (resp : ProofResponse) (pc : ProofCache) (key : string) (e : CachedProof.t) :
  cache (ProofCache_Set B evictNow now req resp pc) !! key = Some e ->
  e = CachedProof.mk (Proof resp) (PublicInputs resp) now 1 \/
  cache pc !! key = Some e.
Proof.
  unfold ProofCache_Set. simpl. intros Hl.
  apply lookup_insert_Some in Hl. destruct Hl as [[_ Hl] | [_ Hl]]; [left; congruence |].
  right. destruct (maxSize pc <=? _)%Z; [apply (evictLRU_lookup evictNow) |]; exact Hl.
Qed.

Lemma Set_lookup_key (B : Backend) (evictNow now : Z) (req : ProofRequest)
    (resp : ProofResponse) (pc : ProofCache) :
  cache (ProofCache_Set B evictNow now req resp pc) !! generateCacheKey B req
  = Some (CachedProof.mk (Proof resp) (PublicInputs resp) now 1).
Proof. unfold ProofCache_Set. simpl. apply lookup_insert_eq. Qed.

Lemma evictLRU_ttl (now : Z) (pc : ProofCache) : ttl (evictLRU now pc) = ttl pc.
Proof. unfold evictLRU. destruct (String.eqb _ ""); reflexivity. Qed.

Lemma Set_ttl (B : Backend) (evictNow now : Z) (req : ProofRequest)
    (resp : ProofResponse) (pc : ProofCache) :
  ttl (ProofCache_Set B evictNow now req resp pc) = ttl pc.
Proof.
  unfold ProofCache_Set. simpl.
  destruct (maxSize pc <=? _)%Z; [apply evictLRU_ttl | reflexivity].
Qed.

Lemma cleanup_lookup (now : Z) (pc : ProofCache) (key : string) (e : CachedProof.t) :
  cache (cleanup now pc) !! key = Some e -> cache pc !! key = Some e.
Proof.
  unfold cleanup. simpl. intros Hl. apply map_lookup_filter_Some in Hl. tauto.
Qed.

(** The cache key is a function of [MinAmount], [RecipientKey] and
    [MaxBlockAge] alone. *)
Lemma generateCacheKey_public_only (B : Backend) (r1 r2 : ProofRequest) :
  MinAmount r1 = MinAmount r2 ->
  RecipientKey B r1 = RecipientKey B r2 ->
  MaxBlockAge r1 = MaxBlockAge r2 ->
  generateCacheKey B r1 = generateCacheKey B r2.
Proof. intros H1 H2 H3. unfold generateCacheKey. rewrite H1, H2, H3. reflexivity. Qed.

(** ** The handler *)

(** The two ways out of proof generation: an error response that leaves
    the cache alone, or a verified proof that is stored and returned. *)
Lemma generateProof_cases (B : Backend) (clk : Clock) (req : ProofRequest) (s : Server) :
  (status (fst (generateProof B clk req s)) <> StatusOK /\
   (exists msg, body (fst (generateProof B clk req s)) = ErrorBody msg) /\
   proofCache (snd (generateProof B clk req s)) = proofCache s) \/
  (exists w proof publicWitness proofBytes,
      preVerifySignature B req = None /\
      frontend_NewWitness B (assignment_of req) = Some w /\
      groth16_Prove B w = Some proof /\
      witness_Public B w = Some publicWitness /\
      groth16_Verify B proof publicWitness = true /\
      json_Marshal B proof = Some proofBytes /\
      fst (generateProof B clk req s)
      = {| status := StatusOK; body := ProofBody (fresh_response clk req proofBytes) |} /\
      proofCache (snd (generateProof B clk req s))
      = ProofCache_Set B (t_evict clk) (t_set clk) req
          (fresh_response clk req proofBytes) (proofCache s)).
Proof.
  unfold generateProof.
  destruct (preVerifySignature B req) as [err |] eqn:Hpre.
  { left. simpl. repeat split; [discriminate | eauto]. }
  destruct (frontend_NewWitness B (assignment_of req)) as [w |] eqn:Hw.
  2: { left. simpl. repeat split; [discriminate | eauto]. }
  destruct (groth16_Prove B w) as [proof |] eqn:Hprove.
  2: { left. simpl. repeat split; [discriminate | eauto]. }
  destruct (witness_Public B w) as [publicWitness |] eqn:Hpub.
  2: { left. simpl. repeat split; [discriminate | eauto]. }
  destruct (groth16_Verify B proof publicWitness) eqn:Hver.
  2: { left. simpl. repeat split; [discriminate | eauto]. }
  simpl.
  destruct (json_Marshal B proof) as [proofBytes |] eqn:Hjson.
  2: { left. simpl. repeat split; [discriminate | eauto]. }
  right. exists w, proof, publicWitness, proofBytes. simpl. repeat split; assumption.
Qed.

(** A validated request whose key is in the cache and not expired is
    answered from the cache, and nothing else in the state changes. *)
Lemma handler_hit (B : Backend) (clk : Clock) (req : ProofRequest) (s : Server)
    (e : CachedProof.t) :
  validateProofRequest (t_validate clk) req = None ->
  cache (proofCache s) !! generateCacheKey B req = Some e ->
  t_get clk - CachedProof.GeneratedAt e <= ttl (proofCache s) ->
  generateProofHandler B clk (Some req) s
  = ({| status := StatusOK; body := ProofBody (response_of_entry e) |},
     set_proofCache
       (set_cache (<[generateCacheKey B req := touched e]> (cache (proofCache s)))
          (proofCache s)) s).
Proof.
  intros Hval He Hfresh. unfold generateProofHandler.
  rewrite Hval, (Get_hit B (t_get clk) req (proofCache s) e He Hfresh). reflexivity.
Qed.

(** Every step of the process keeps the cache verified. *)
Lemma handler_preserves_cache_verified (B : Backend) (clk : Clock)
    (bound : option ProofRequest) (s : Server) :
  cache_verified B (proofCache s) ->
  cache_verified B (proofCache (snd (generateProofHandler B clk bound s))).
Proof.
  intros Hinv. unfold generateProofHandler.
  destruct bound as [req |]; [| exact Hinv].
  destruct (validateProofRequest (t_validate clk) req); [exact Hinv |].
  destruct (Get B (t_get clk) req (proofCache s)) as [[r |] pc'] eqn:Hget.
  - apply Get_Some_inv in Hget. destruct Hget as (e & He & _ & _ & ->).
    simpl. intros key e' H. simpl in H.
    apply lookup_insert_Some in H. destruct H as [[_ <-] | [_ H]].
    + exact (Hinv _ _ He).
    + exact (Hinv _ _ H).
  - destruct (generateProof_cases B clk req s) as [(_ & _ & Hsame) | Hok].
    + rewrite Hsame. exact Hinv.
    + destruct Hok as (w & proof & pw & pb & _ & _ & Hprove & Hpub & Hver & Hjson & _ & Hc).
      rewrite Hc. intros key e' H. apply Set_lookup in H. destruct H as [-> | H].
      * exists w, proof, pw. auto.
      * exact (Hinv _ _ H).
Qed.

Lemma reachable_cache_verified (B : Backend) (s : Server) :
  reachable B s -> cache_verified B (proofCache s).
Proof.
  induction 1 as [| s s' _ IH Hstep].
  - intros key e H. simpl in H. rewrite lookup_empty in H. discriminate.
  - destruct Hstep as [clk bound s | now s].
    + apply handler_preserves_cache_verified. exact IH.
    + simpl. intros key e H. apply cleanup_lookup in H. exact (IH _ _ H).
Qed.

(** A success response is backed by a cache entry with the same proof and
    public inputs, under the request's key, in the state left behind. *)
Lemma handler_OK_cached (B : Backend) (clk : Clock) (req : ProofRequest) (s : Server) :
  status (fst (generateProofHandler B clk (Some req) s)) = StatusOK ->
  exists p e,
    fst (generateProofHandler B clk (Some req) s)
    = {| status := StatusOK; body := ProofBody p |} /\
    cache (proofCache (snd (generateProofHandler B clk (Some req) s)))
      !! generateCacheKey B req = Some e /\
    CachedProof.Proof e = Proof p /\
    CachedProof.PublicInputs e = PublicInputs p /\
    ttl (proofCache (snd (generateProofHandler B clk (Some req) s))) = ttl (proofCache s).
Proof.
  unfold generateProofHandler.
  destruct (validateProofRequest (t_validate clk) req); [discriminate |].
  destruct (Get B (t_get clk) req (proofCache s)) as [[r |] pc'] eqn:Hget.
  - apply Get_Some_inv in Hget. destruct Hget as (e & He & _ & -> & ->).
    intros _. exists (response_of_entry e), (touched e). simpl.
    rewrite lookup_insert_eq. auto.
  - intros Hok.
    destruct (generateProof_cases B clk req s) as [(Hne & _) | Hgen]; [contradiction |].
    destruct Hgen as (w & proof & pw & pb & _ & _ & _ & _ & _ & _ & Hr & Hc).
    exists (fresh_response clk req pb),
      (CachedProof.mk pb (PublicInputs (fresh_response clk req pb)) (t_set clk) 1).
    rewrite Hr, Hc, Set_lookup_key, Set_ttl. auto.
Qed.

(** The second of two requests with the same key. *)
Lemma handler_second_hit (B : Backend) (clk1 clk2 : Clock) (r1 r2 : ProofRequest)
    (s : Server) :
  generateCacheKey B r1 = generateCacheKey B r2 ->
  status (fst (generateProofHandler B clk1 (Some r1) s)) = StatusOK ->
  validateProofRequest (t_validate clk2) r2 = None ->
  (forall e,
      cache (proofCache (snd (generateProofHandler B clk1 (Some r1) s)))
        !! generateCacheKey B r1 = Some e ->
      t_get clk2 - CachedProof.GeneratedAt e <= ttl (proofCache s)) ->
  exists p1,
    fst (generateProofHandler B clk1 (Some r1) s)
    = {| status := StatusOK; body := ProofBody p1 |} /\
    fst (generateProofHandler B clk2 (Some r2)
           (snd (generateProofHandler B clk1 (Some r1) s)))
    = {| status := StatusOK;
         body := ProofBody {| Proof := Proof p1; PublicInputs := PublicInputs p1;
                              GenerationTime := 0 |} |} /\
    calls (snd (generateProofHandler B clk2 (Some r2)
                  (snd (generateProofHandler B clk1 (Some r1) s))))
    = calls (snd (generateProofHandler B clk1 (Some r1) s)) /\
    proofGenerationTotal (snd (generateProofHandler B clk2 (Some r2)
                                 (snd (generateProofHandler B clk1 (Some r1) s))))
    = proofGenerationTotal (snd (generateProofHandler B clk1 (Some r1) s)).
Proof.
  intros Hkey Hok Hval Hage.
  destruct (handler_OK_cached B clk1 r1 s Hok) as (p1 & e & Hr1 & He & HP & HI & Httl).
  exists p1. split; [exact Hr1 |].
  set (s1 := snd (generateProofHandler B clk1 (Some r1) s)) in *.
  assert (He2 : cache (proofCache s1) !! generateCacheKey B r2 = Some e)
    by (rewrite <- Hkey; exact He).
  assert (Hfresh : t_get clk2 - CachedProof.GeneratedAt e <= ttl (proofCache s1))
    by (rewrite Httl; apply Hage; exact He).
  rewrite (handler_hit B clk2 r2 s1 e Hval He2 Hfresh).
  unfold response_of_entry. rewrite HP, HI. simpl. auto.
Qed.

(** C2. In every reachable state, before and after a request, each cache
    entry holds a proof that [groth16.Verify] accepted; a success response
    carries such a proof, and when it was generated for this request it was
    verified against this request's witness; if [groth16.Verify] rejects
    the generated proof, the response is the 500 error "generated proof is
    invalid" and the cache is unchanged. *)
Theorem C2_only_verified_proofs_are_returned_or_cached
    (B : Backend) (clk : Clock) (bound : option ProofRequest) (s : Server) :
  reachable B s ->
  cache_verified B (proofCache s) /\
  cache_verified B (proofCache (snd (generateProofHandler B clk bound s))) /\
  (forall p,
      fst (generateProofHandler B clk bound s)
      = {| status := StatusOK; body := ProofBody p |} ->
      sanity_verified B (Proof p)) /\
  (forall req p,
      bound = Some req ->
      fst (Get B (t_get clk) req (proofCache s)) = None ->
      fst (generateProofHandler B clk bound s)
      = {| status := StatusOK; body := ProofBody p |} ->
      exists w proof publicWitness,
        frontend_NewWitness B (assignment_of req) = Some w /\
        groth16_Prove B w = Some proof /\
        witness_Public B w = Some publicWitness /\
        groth16_Verify B proof publicWitness = true /\
        json_Marshal B proof = Some (Proof p)) /\
  (forall req w proof publicWitness,
      bound = Some req ->
      validateProofRequest (t_validate clk) req = None ->
      fst (Get B (t_get clk) req (proofCache s)) = None ->
      preVerifySignature B req = None ->
      frontend_NewWitness B (assignment_of req) = Some w ->
      groth16_Prove B w = Some proof ->
      witness_Public B w = Some publicWitness ->
      groth16_Verify B proof publicWitness = false ->
      fst (generateProofHandler B clk bound s)
      = JSON_error StatusInternalServerError "generated proof is invalid" /\
      proofCache (snd (generateProofHandler B clk bound s)) = proofCache s).
Proof.
  intros Hreach.
  pose proof (reachable_cache_verified B s Hreach) as Hinv.
  split; [exact Hinv |].
  split; [apply handler_preserves_cache_verified; exact Hinv |].
  split; [| split].
  - intros p. unfold generateProofHandler.
    destruct bound as [req |]; [| discriminate].
    destruct (validateProofRequest (t_validate clk) req); [discriminate |].
    destruct (Get B (t_get clk) req (proofCache s)) as [[r |] pc'] eqn:Hget.
    + apply Get_Some_inv in Hget. destruct Hget as (e & He & _ & -> & _).
      simpl. intros Heq. inversion Heq; subst. exact (Hinv _ _ He).
    + intros Heq.
      destruct (generateProof_cases B clk req s) as [(_ & [msg Hmsg] & _) | Hgen].
      * rewrite Heq in Hmsg. discriminate.
      * destruct Hgen as (w & proof & pw & pb & _ & _ & Hp & Hpub & Hv & Hj & Hr & _).
        rewrite Heq in Hr. inversion Hr; subst. exists w, proof, pw. auto.
  - intros req p -> Hmiss. unfold generateProofHandler.
    destruct (validateProofRequest (t_validate clk) req); [discriminate |].
    destruct (Get B (t_get clk) req (proofCache s)) as [[r |] pc'] eqn:Hget;
      [discriminate |].
    intros Heq.
    destruct (generateProof_cases B clk req s) as [(_ & [msg Hmsg] & _) | Hgen].
    + rewrite Heq in Hmsg. discriminate.
    + destruct Hgen as (w & proof & pw & pb & _ & Hw & Hp & Hpub & Hv & Hj & Hr & _).
      rewrite Heq in Hr. inversion Hr; subst. exists w, proof, pw. auto.
  - intros req w proof pw -> Hval Hmiss Hpre Hw Hp Hpub Hv.
    unfold generateProofHandler. rewrite Hval.
    destruct (Get B (t_get clk) req (proofCache s)) as [[r |] pc'] eqn:Hget;
      [discriminate |].
    unfold generateProof. rewrite Hpre, Hw, Hp, Hpub, Hv. simpl. auto.
Qed.

(** C4 (as the code has it). When a validated, pre-verified request misses
    the cache and its assignment either does not convert to a witness or
    violates a constraint of [Define], the response is a 500 error,
    "witness creation failed" or "proof generation failed", and the cache
    is unchanged. *)
Theorem C4_unsatisfiable_witness_is_an_internal_error
    (B : Backend) (clk : Clock) (req : ProofRequest) (s : Server) :
  validateProofRequest (t_validate clk) req = None ->
  fst (Get B (t_get clk) req (proofCache s)) = None ->
  preVerifySignature B req = None ->
  match frontend_NewWitness B (assignment_of req) with
  | Some w => Define B w = false
  | None => True
  end ->
  fst (generateProofHandler B clk (Some req) s)
  = JSON_error StatusInternalServerError
      match frontend_NewWitness B (assignment_of req) with
      | Some _ => "proof generation failed"
      | None => "witness creation failed"
      end /\
  proofCache (snd (generateProofHandler B clk (Some req) s)) = proofCache s.
Proof.
  intros Hval Hmiss Hpre Hunsat. unfold generateProofHandler. rewrite Hval.
  destruct (Get B (t_get clk) req (proofCache s)) as [[r |] pc'] eqn:Hget;
    [discriminate |].
  unfold generateProof. rewrite Hpre.
  destruct (frontend_NewWitness B (assignment_of req)) as [w |]; [| simpl; auto].
  unfold groth16_Prove. rewrite Hunsat. simpl. auto.
Qed.

(** C8 (as the code has it). A request that passes validation and whose
    key has an unexpired cache entry is answered 200 with that entry,
    without any call to [preVerifySignature], [NewWitness], [Prove] or
    [Verify]; nothing is assumed of its signature. *)
Theorem C8_validated_cache_hit_skips_signature_check
    (B : Backend) (clk : Clock) (req : ProofRequest) (s : Server) (e : CachedProof.t) :
  validateProofRequest (t_validate clk) req = None ->
  cache (proofCache s) !! generateCacheKey B req = Some e ->
  t_get clk - CachedProof.GeneratedAt e <= ttl (proofCache s) ->
  fst (generateProofHandler B clk (Some req) s)
  = {| status := StatusOK; body := ProofBody (response_of_entry e) |} /\
  calls (snd (generateProofHandler B clk (Some req) s)) = calls s.
Proof.
  intros Hval He Hfresh. rewrite (handler_hit B clk req s e Hval He Hfresh).
  split; reflexivity.
Qed.

(** C5. Two requests with the same [minAmount], [recipientKey] and
    [maxBlockAge]: when the first is answered 200 and the second passes
    validation while the cached entry is within the TTL, the second is
    answered 200 with the first's proof and public inputs and
    [generationTimeMs = 0], makes no call into the proving pipeline and
    leaves the count of generated proofs unchanged. *)
Theorem C5_cache_idempotence
    (B : Backend) (clk1 clk2 : Clock) (r1 r2 : ProofRequest) (s : Server) :
  MinAmount r1 = MinAmount r2 ->
  RecipientKey B r1 = RecipientKey B r2 ->
  MaxBlockAge r1 = MaxBlockAge r2 ->
  status (fst (generateProofHandler B clk1 (Some r1) s)) = StatusOK ->
  validateProofRequest (t_validate clk2) r2 = None ->
  (forall e,
      cache (proofCache (snd (generateProofHandler B clk1 (Some r1) s)))
        !! generateCacheKey B r1 = Some e ->
      t_get clk2 - CachedProof.GeneratedAt e <= ttl (proofCache s)) ->
  exists p1,
    fst (generateProofHandler B clk1 (Some r1) s)
    = {| status := StatusOK; body := ProofBody p1 |} /\
    fst (generateProofHandler B clk2 (Some r2)
           (snd (generateProofHandler B clk1 (Some r1) s)))
    = {| status := StatusOK;
         body := ProofBody {| Proof := Proof p1; PublicInputs := PublicInputs p1;
                              GenerationTime := 0 |} |} /\
    calls (snd (generateProofHandler B clk2 (Some r2)
                  (snd (generateProofHandler B clk1 (Some r1) s))))
    = calls (snd (generateProofHandler B clk1 (Some r1) s)) /\
    proofGenerationTotal (snd (generateProofHandler B clk2 (Some r2)
                                 (snd (generateProofHandler B clk1 (Some r1) s))))
    = proofGenerationTotal (snd (generateProofHandler B clk1 (Some r1) s)).
Proof.
  intros Hm Hr Ha. apply handler_second_hit.
  apply generateCacheKey_public_only; assumption.
Qed.

(** C9. Requests that agree on [minAmount], [recipientKey] and
    [maxBlockAge] have the same cache key whatever their [currentTime]; so
    when the first is proved afresh and the second arrives valid within
    the TTL, the second is answered 200 with a public-input vector ending
    in the first request's [currentTime], which is not its own vector when
    the two [currentTime]s differ. *)
Theorem C9_cache_key_ignores_currentTime
    (B : Backend) (clk1 clk2 : Clock) (r1 r2 : ProofRequest) (s : Server) :
  MinAmount r1 = MinAmount r2 ->
  RecipientKey B r1 = RecipientKey B r2 ->
  MaxBlockAge r1 = MaxBlockAge r2 ->
  generateCacheKey B r1 = generateCacheKey B r2 /\
  (fst (Get B (t_get clk1) r1 (proofCache s)) = None ->
   status (fst (generateProofHandler B clk1 (Some r1) s)) = StatusOK ->
   validateProofRequest (t_validate clk2) r2 = None ->
   t_get clk2 - t_set clk1 <= ttl (proofCache s) ->
   exists p2,
     fst (generateProofHandler B clk2 (Some r2)
            (snd (generateProofHandler B clk1 (Some r1) s)))
     = {| status := StatusOK; body := ProofBody p2 |} /\
     PublicInputs p2
     = [MinAmount r1; RecipientKeyX r1; RecipientKeyY r1; MaxBlockAge r1;
        Sprintf_d (CurrentTime r1)] /\
     (CurrentTime r1 <> CurrentTime r2 ->
      PublicInputs p2 <> PublicInputs (fresh_response clk2 r2 (Proof p2)))).
Proof.
  intros Hm Hr Ha.
  pose proof (generateCacheKey_public_only B r1 r2 Hm Hr Ha) as Hkey.
  split; [exact Hkey |].
  intros Hmiss Hok Hval Hage.
  assert (Hfresh : exists pb,
             fst (generateProofHandler B clk1 (Some r1) s)
             = {| status := StatusOK; body := ProofBody (fresh_response clk1 r1 pb) |} /\
             proofCache (snd (generateProofHandler B clk1 (Some r1) s))
             = ProofCache_Set B (t_evict clk1) (t_set clk1) r1
                 (fresh_response clk1 r1 pb) (proofCache s)).
  { revert Hok. unfold generateProofHandler.
    destruct (validateProofRequest (t_validate clk1) r1); [discriminate |].
    destruct (Get B (t_get clk1) r1 (proofCache s)) as [[r |] pc'] eqn:Hget;
      [discriminate |].
    intros Hok.
    destruct (generateProof_cases B clk1 r1 s) as [(Hne & _) | Hgen]; [contradiction |].
    destruct Hgen as (w & proof & pw & pb & _ & _ & _ & _ & _ & _ & Hr1 & Hc).
    exists pb. auto. }
  destruct Hfresh as (pb & Hr1 & Hc).
  destruct (handler_second_hit B clk1 clk2 r1 r2 s Hkey Hok Hval) as (p1 & Hp1 & Hr2 & _).
  { intros e He. rewrite Hc, Set_lookup_key in He. inversion He; subst. exact Hage. }
  eexists. split; [exact Hr2 |]. simpl.
  rewrite Hr1 in Hp1. inversion Hp1; subst. simpl.
  split; [reflexivity |].
  intros Hne Heq. inversion Heq as [[H1 H2 H3 H4 H5]].
  apply Hne, Sprintf_d_inj. exact H5.
Qed.

(** ** The properties on the stand-in backend *)

(** The state after [sample_request] is reachable. *)
Lemma sample_server_reachable : reachable toy_backend sample_server.
Proof.
  eapply reachable_step; [apply reachable_init |].
  apply (step_request toy_backend (clock_at sample_now) (Some sample_request)).
Qed.

(** The entry that proving [sample_request] leaves under its key. *)
Lemma sample_server_entry :
  cache (proofCache sample_server) !! generateCacheKey toy_backend sample_request
  = Some sample_entry.
Proof. vm_compute. reflexivity. Qed.

(** The verified-cache property at the state reached by proving
    [sample_request]: the entry it stored holds a verified proof. *)
Lemma C2_witness :
  reachable toy_backend sample_server /\
  sanity_verified toy_backend (CachedProof.Proof sample_entry).
Proof.
  split; [exact sample_server_reachable |].
  destruct (C2_only_verified_proofs_are_returned_or_cached toy_backend later_clock
              (Some second_request) sample_server sample_server_reachable)
    as [Hinv _].
  exact (Hinv _ _ sample_server_entry).
Defined.

(** The internal-error outcome on a request that pays less than it
    asks for. *)
Lemma C4_witness :
  let req := with_amounts "2000000" "1000000" sample_request in
  fst (generateProofHandler toy_backend (clock_at sample_now) (Some req) initial_Server)
  = JSON_error StatusInternalServerError "proof generation failed".
Proof.
  intros req.
  assert (Hval : validateProofRequest (t_validate (clock_at sample_now)) req = None)
    by (vm_compute; reflexivity).
  assert (Hmiss : fst (Get toy_backend (t_get (clock_at sample_now)) req
                         (proofCache initial_Server)) = None)
    by (vm_compute; reflexivity).
  assert (Hpre : preVerifySignature toy_backend req = None)
    by (vm_compute; reflexivity).
  assert (Hunsat : match frontend_NewWitness toy_backend (assignment_of req) with
                   | Some w => Define toy_backend w = false
                   | None => True
                   end)
    by (vm_compute; reflexivity).
  pose proof (proj1 (C4_unsatisfiable_witness_is_an_internal_error toy_backend
                       (clock_at sample_now) req initial_Server Hval Hmiss Hpre Hunsat))
    as H.
  vm_compute in H. vm_compute. exact H.
Defined.

(** C4, as stated, fails: a request that passes validation and signature
    pre-verification but pays less than [minAmount] violates the amount
    constraint, and the answer is the 500 error "proof generation failed",
    not a 400 with "invalid payment proof inputs". *)
Lemma C4_counterexample :
  let req := with_amounts "2000000" "1000000" sample_request in
  let clk := clock_at sample_now in
  let resp := fst (generateProofHandler toy_backend clk (Some req) initial_Server) in
  validateProofRequest (t_validate clk) req = None /\
  preVerifySignature toy_backend req = None /\
  (exists w, frontend_NewWitness toy_backend (assignment_of req) = Some w /\
             Define toy_backend w = false) /\
  status resp = StatusInternalServerError /\
  ~ (status resp = StatusBadRequest /\
     body resp = ErrorBody "invalid payment proof inputs").
Proof.
  cbv zeta.
  split; [vm_compute; reflexivity |].
  split; [vm_compute; reflexivity |].
  split; [exists insufficient_witness; split; vm_compute; reflexivity |].
  split; [vm_compute; reflexivity |].
  intros [H _]. vm_compute in H. discriminate H.
Qed.

(** Idempotence on [sample_request] followed, 30 seconds later, by a
    request of another sender for the same public claim. *)
Lemma C5_witness :
  SenderKeyX sample_request <> SenderKeyX second_request /\
  fst (generateProofHandler toy_backend later_clock (Some second_request) sample_server)
  = {| status := StatusOK; body := ProofBody (response_of_entry sample_entry) |} /\
  calls (snd (generateProofHandler toy_backend later_clock (Some second_request)
                sample_server))
  = calls sample_server.
Proof.
  split; [discriminate |].
  assert (Hok : status (fst (generateProofHandler toy_backend (clock_at sample_now)
                               (Some sample_request) initial_Server)) = StatusOK)
    by (vm_compute; reflexivity).
  assert (Hval : validateProofRequest (t_validate later_clock) second_request = None)
    by (vm_compute; reflexivity).
  assert (Hage : forall e,
             cache (proofCache (snd (generateProofHandler toy_backend (clock_at sample_now)
                                       (Some sample_request) initial_Server)))
               !! generateCacheKey toy_backend sample_request = Some e ->
             t_get later_clock - CachedProof.GeneratedAt e
             <= ttl (proofCache initial_Server)).
  { intros e He. fold sample_server in He. rewrite sample_server_entry in He.
    inversion He; subst. vm_compute. discriminate. }
  destruct (C5_cache_idempotence toy_backend (clock_at sample_now) later_clock
              sample_request second_request initial_Server
              eq_refl eq_refl eq_refl Hok Hval Hage)
    as (p1 & Hp1 & Hr2 & Hcalls & _).
  fold sample_server in Hr2, Hcalls.
  split; [| exact Hcalls].
  rewrite Hr2. vm_compute in Hp1. inversion Hp1; subst. reflexivity.
Defined.

(** A request with an invalid signature ([S = 2] on the stand-in
    backend) whose key hits the cache is answered 200. *)
Lemma C8_witness :
  let req := with_times 1700000030 1700000020 (with_signatureS "2" sample_request) in
  preVerifySignature toy_backend req = Some "invalid EdDSA signature" /\
  fst (generateProofHandler toy_backend later_clock (Some req) sample_server)
  = {| status := StatusOK; body := ProofBody (response_of_entry sample_entry) |} /\
  calls (snd (generateProofHandler toy_backend later_clock (Some req) sample_server))
  = calls sample_server.
Proof.
  intros req. split; [vm_compute; reflexivity |].
  apply (C8_validated_cache_hit_skips_signature_check toy_backend later_clock req
           sample_server sample_entry).
  - vm_compute. reflexivity.
  - vm_compute. reflexivity.
  - vm_compute. discriminate.
Defined.

(** C8, as stated, fails for an empty signature: validation runs before
    the cache lookup, so a request whose key fields hit an unexpired entry
    but whose [signatureS] is empty is answered 400. *)
Lemma C8_counterexample :
  let req := with_times 1700000030 1700000020 (with_signatureS "" sample_request) in
  cache (proofCache sample_server) !! generateCacheKey toy_backend req = Some sample_entry /\
  t_get later_clock - CachedProof.GeneratedAt sample_entry <= ttl (proofCache sample_server) /\
  fst (generateProofHandler toy_backend later_clock (Some req) sample_server)
  = JSON_error StatusBadRequest "signatureS is required" /\
  status (fst (generateProofHandler toy_backend later_clock (Some req) sample_server))
  <> StatusOK.
Proof.
  cbv zeta. split; [vm_compute; reflexivity |].
  split; [vm_compute; discriminate |].
  split; [vm_compute; reflexivity |].
  vm_compute. discriminate.
Qed.

(** The second request, made at 1700000030, is served public inputs
    ending in 1700000000. *)
Lemma C9_witness :
  CurrentTime sample_request <> CurrentTime second_request /\
  generateCacheKey toy_backend sample_request = generateCacheKey toy_backend second_request /\
  exists p2,
    fst (generateProofHandler toy_backend later_clock (Some second_request) sample_server)
    = {| status := StatusOK; body := ProofBody p2 |} /\
    PublicInputs p2
    = ["1000000"; "12345678901234567890123456789012";
       "98765432109876543210987654321098"; "60"; "1700000000"] /\
    Sprintf_d (CurrentTime second_request) = "1700000030".
Proof.
  split; [discriminate |].
  destruct (C9_cache_key_ignores_currentTime toy_backend (clock_at sample_now) later_clock
              sample_request second_request initial_Server eq_refl eq_refl eq_refl)
    as [Hkey Hserved].
  split; [exact Hkey |].
  destruct Hserved as (p2 & Hr2 & Hin & _).
  - vm_compute. reflexivity.
  - vm_compute. reflexivity.
  - vm_compute. reflexivity.
  - vm_compute. discriminate.
  - exists p2. fold sample_server in Hr2. split; [exact Hr2 |].
    split; [exact Hin | vm_compute; reflexivity].
Defined.

(** The limiter of [main] (10 requests per minute): eleven calls in the
    first eleven nanoseconds, then one a minute after the first. *)
Lemma C6_witness :
  exists rl',
    AllowRun [(0, 0); (1, 1); (2, 2); (3, 3); (4, 4); (5, 5); (6, 6); (7, 7); (8, 8);
              (9, 9); (10, 10)] "203.0.113.7" (NewRateLimiter 10 minute)
    = Some ([true; true; true; true; true; true; true; true; true; true; false], rl') /\
    exists rl'', Allow minute minute "203.0.113.7" rl' = Some (true, rl'').
Proof.
  destruct (C6_token_bucket_burst_then_refill 10 "203.0.113.7" (NewRateLimiter 10 minute)
              0 0
              [(1, 1); (2, 2); (3, 3); (4, 4); (5, 5); (6, 6); (7, 7); (8, 8); (9, 9);
               (10, 10)])
    as (rl' & Hrun & Hrefill).
  - reflexivity.
  - reflexivity.
  - lia.
  - reflexivity.
  - reflexivity.
  - repeat constructor; simpl; vm_compute; discriminate.
  - exists rl'. split; [exact Hrun |].
    apply (Hrefill minute minute); [vm_compute; discriminate | vm_compute; reflexivity].
Defined.

(** * Further properties of the prover *)

(** ** What validation guarantees *)

Lemma not_digit_false (c : ascii) :
  not_digit c = false -> 0 <= digit_value c <= 9.
Proof.
  unfold not_digit, digit_value. intros H.
  apply orb_false_iff in H. destruct H as [H1 H2].
  apply N.ltb_ge in H1. apply N.ltb_ge in H2. lia.
Qed.

Lemma all_digits_parse (s : string) :
  forall acc : Z,
    all_digits s = true ->
    0 <= acc ->
    exists v,
      parse_digits acc s = Some v /\
      acc * 10 ^ len s <= v < (acc + 1) * 10 ^ len s.
Proof.
  induction s as [| c rest IH]; intros acc Hd Hacc.
  - exists acc. split; [reflexivity |]. unfold len. simpl. lia.
  - simpl in Hd. destruct (not_digit c) eqn:Hc; [discriminate |].
    pose proof (not_digit_false c Hc) as Hv.
    destruct (IH (10 * acc + digit_value c) Hd ltac:(lia)) as (v & Hp & Hlo & Hhi).
    exists v. cbn [parse_digits]. rewrite Hc. split; [exact Hp |].
    unfold len in *. cbn [String.length].
    rewrite Nat2Z.inj_succ, Z.pow_succ_r by lia.
    assert (Hpow : 0 < 10 ^ Z.of_nat (String.length rest)) by (apply Z.pow_pos_nonneg; lia).
    split; nia.
Qed.

Lemma SetString10_digits (s : string) :
  isValidNumeric s = true -> SetString10 s = parse_digits 0 s.
Proof.
  intros H. apply isValidNumeric_spec in H. destruct H as [Hne Hd].
  destruct s as [| c rest]; [contradiction |].
  simpl in Hd. destruct (not_digit c) eqn:Hc; [discriminate |].
  destruct c as [[] [] [] [] [] [] [] []]; try reflexivity; discriminate Hc.
Qed.

(** A string accepted by [isValidNumeric] is read by [big.Int.SetString]
    as a number between 0 and [10 ^ len]. *)
Lemma isValidNumeric_parses (s : string) :
  isValidNumeric s = true ->
  exists v, SetString10 s = Some v /\ 0 <= v < 10 ^ len s.
Proof.
  intros H. rewrite (SetString10_digits s H).
  apply isValidNumeric_spec in H. destruct H as [_ Hd].
  destruct (all_digits_parse s 0 Hd ltac:(lia)) as (v & Hp & Hb).
  exists v. split; [exact Hp | lia].
Qed.

(** What a request that passes validation satisfies. *)
Lemma validateProofRequest_None (now : Z) (req : ProofRequest) :
  validateProofRequest now req = None ->
  (MinAmount req <> "" /\ RecipientKeyX req <> "" /\ RecipientKeyY req <> "" /\
   ActualAmount req <> "" /\ SenderKeyX req <> "" /\ SenderKeyY req <> "" /\
   SignatureR8X req <> "" /\ SignatureR8Y req <> "" /\ SignatureS req <> "") /\
  (len (MinAmount req) <= 100 /\ len (RecipientKeyX req) <= 100 /\
   len (RecipientKeyY req) <= 100) /\
  (isValidNumeric (MinAmount req) = true /\ isValidNumeric (ActualAmount req) = true /\
   isValidNumeric (MaxBlockAge req) = true) /\
  (MinAmount req <> "0" /\ ActualAmount req <> "0") /\
  (Unix now - 300 <= CurrentTime req <= Unix now + 60 /\
   Unix now - 300 <= PaymentTime req <= Unix now + 60 /\
   PaymentTime req <= CurrentTime req).
Proof.
  intros H. unfold validateProofRequest in H. cbv zeta in H.
  repeat match type of H with
         | (if ?c then _ else _) = _ => destruct c eqn:?; try discriminate H
         end.
  repeat match goal with
         | E : String.eqb _ _ = false |- _ => apply String.eqb_neq in E
         | E : (_ <? _)%Z = false |- _ => apply Z.ltb_ge in E
         | E : negb _ = false |- _ => apply negb_false_iff in E
         | E : (_ || _) = false |- _ => apply orb_false_iff in E; destruct E
         end.
  repeat split; assumption || lia.
Qed.

(** X1. A request that passes validation has [minAmount], [actualAmount]
    and [maxBlockAge] that [big.Int.SetString] reads as non-negative
    numbers, [minAmount] below [10 ^ 100]. *)
Theorem validated_amounts_are_numbers (now : Z) (req : ProofRequest) :
  validateProofRequest now req = None ->
  exists minAmount actualAmount maxBlockAge,
    SetString10 (MinAmount req) = Some minAmount /\
    SetString10 (ActualAmount req) = Some actualAmount /\
    SetString10 (MaxBlockAge req) = Some maxBlockAge /\
    0 <= minAmount < 10 ^ 100 /\ 0 <= actualAmount /\ 0 <= maxBlockAge.
Proof.
  intros H. apply validateProofRequest_None in H.
  destruct H as (_ & (Hlen & _) & (Hm & Ha & Hb) & _).
  destruct (isValidNumeric_parses _ Hm) as (m & Hpm & Hm0 & Hm1).
  destruct (isValidNumeric_parses _ Ha) as (a & Hpa & Ha0 & _).
  destruct (isValidNumeric_parses _ Hb) as (b & Hpb & Hb0 & _).
  exists m, a, b. repeat split; try assumption.
  eapply Z.lt_le_trans; [exact Hm1 |].
  apply Z.pow_le_mono_r; [lia | exact Hlen].
Qed.

Lemma validated_amounts_are_numbers_witness :
  exists minAmount actualAmount maxBlockAge,
    SetString10 (MinAmount sample_request) = Some minAmount /\
    SetString10 (ActualAmount sample_request) = Some actualAmount /\
    SetString10 (MaxBlockAge sample_request) = Some maxBlockAge /\
    0 <= minAmount < 10 ^ 100 /\ 0 <= actualAmount /\ 0 <= maxBlockAge.
Proof.
  apply (validated_amounts_are_numbers sample_now sample_request).
  vm_compute. reflexivity.
Defined.

(** X2. A request that passes validation has both timestamps within 300
    seconds before and 60 seconds after the server's clock, and a payment
    age [currentTime - paymentTime] between 0 and 360 seconds. *)
Theorem validated_times_are_in_window (now : Z) (req : ProofRequest) :
  validateProofRequest now req = None ->
  Unix now - 300 <= PaymentTime req /\
  PaymentTime req <= CurrentTime req /\
  CurrentTime req <= Unix now + 60 /\
  0 <= CurrentTime req - PaymentTime req <= 360.
Proof.
  intros H. apply validateProofRequest_None in H.
  destruct H as (_ & _ & _ & _ & Hc & Hp & Hle). lia.
Qed.

Lemma validated_times_are_in_window_witness :
  Unix sample_now - 300 <= PaymentTime sample_request /\
  PaymentTime sample_request <= CurrentTime sample_request /\
  CurrentTime sample_request <= Unix sample_now + 60 /\
  0 <= CurrentTime sample_request - PaymentTime sample_request <= 360.
Proof.
  apply (validated_times_are_in_window sample_now sample_request).
  vm_compute. reflexivity.
Defined.

Lemma minAmount_rejection_is_literal_zero (now : Z) (req : ProofRequest) :
  validateProofRequest now req = Some "minAmount must be positive" ->
  MinAmount req = "0".
Proof.
  intros H. unfold validateProofRequest in H. cbv zeta in H.
  repeat match type of H with
         | (if ?c then _ else _) = _ => destruct c eqn:?; try discriminate H
         end.
  match goal with
  | Hp : (String.eqb (MinAmount req) "0" || _) = true |- _ => rename Hp into HP
  end.
  match goal with
  | Hn : negb (isValidNumeric (MinAmount req)) = false |- _ => rename Hn into HN
  end.
  apply orb_true_iff in HP. destruct HP as [HP | HP].
  - apply String.eqb_eq; assumption.
  - exfalso.
    apply negb_false_iff, isValidNumeric_spec in HN. destruct HN as [_ HN].
    destruct (MinAmount req) as [| c rest]; simpl in HP, HN; try discriminate.
    apply Ascii.eqb_eq in HP. subst c. simpl in HN. discriminate.
Qed.

(** X3. The positivity checks never fire on a leading ['-']: when
    validation fails with "minAmount must be positive" or "actualAmount
    must be positive", the field is the literal string ["0"]. *)
Theorem positivity_checks_fire_only_on_literal_zero
    (now : Z) (req : ProofRequest) (msg : string) :
  validateProofRequest now req = Some msg ->
  (msg = "minAmount must be positive" -> MinAmount req = "0") /\
  (msg = "actualAmount must be positive" -> ActualAmount req = "0").
Proof.
  intros H. split; intros ->.
  - exact (minAmount_rejection_is_literal_zero now req H).
  - exact (positivity_rejection_is_literal_zero now req H).
Qed.

Lemma positivity_checks_fire_only_on_literal_zero_witness :
  ActualAmount (with_amounts "1000000" "0" sample_request) = "0".
Proof.
  apply (positivity_checks_fire_only_on_literal_zero sample_now
           (with_amounts "1000000" "0" sample_request) "actualAmount must be positive").
  - vm_compute. reflexivity.
  - reflexivity.
Defined.

(** ** The shape of the handler's answers *)

(** Proof generation answers 200 with a proof, or 400 or 500 with an
    error, extends the call log by a prefix of the pipeline, and adds at
    most one to the count of generated proofs. *)
Lemma generateProof_shape (B : Backend) (clk : Clock) (req : ProofRequest) (s : Server) :
  let r := generateProof B clk req s in
  ((status (fst r) = StatusOK /\ (exists p, body (fst r) = ProofBody p) /\
    calls (snd r) = (calls s ++ pipeline)%list /\
    proofGenerationTotal (snd r) = proofGenerationTotal s + 1) \/
   ((status (fst r) = StatusBadRequest \/ status (fst r) = StatusInternalServerError) /\
    (exists msg, body (fst r) = ErrorBody msg) /\
    (exists n, (1 <= n <= 4)%nat /\ calls (snd r) = (calls s ++ take n pipeline)%list) /\
    proofCache (snd r) = proofCache s)).
Proof.
  unfold generateProof, pipeline.
  destruct (preVerifySignature B req) as [err |].
  { right. simpl. repeat split; eauto. exists 1%nat. split; [lia | reflexivity]. }
  destruct (frontend_NewWitness B (assignment_of req)) as [w |].
  2: { right. simpl. repeat split; eauto. exists 2%nat.
       split; [lia |]. rewrite <- app_assoc. reflexivity. }
  destruct (groth16_Prove B w) as [proof |].
  2: { right. simpl. repeat split; eauto. exists 3%nat.
       split; [lia |]. rewrite <- !app_assoc. reflexivity. }
  destruct (witness_Public B w) as [publicWitness |].
  2: { right. simpl. repeat split; eauto. exists 3%nat.
       split; [lia |]. rewrite <- !app_assoc. reflexivity. }
  destruct (groth16_Verify B proof publicWitness).
  2: { right. simpl. repeat split; eauto. exists 4%nat.
       split; [lia |]. rewrite <- !app_assoc. reflexivity. }
  simpl. destruct (json_Marshal B proof) as [proofBytes |].
  2: { right. simpl. repeat split; eauto. exists 4%nat.
       split; [lia |]. rewrite <- !app_assoc. reflexivity. }
  left. simpl. repeat split; eauto. rewrite <- !app_assoc. reflexivity.
Qed.

(** X4. Every answer of the handler has status 200, 400 or 500; it
    carries a proof exactly when the status is 200, and an error message
    otherwise. *)
Theorem handler_status_and_body
    (B : Backend) (clk : Clock) (bound : option ProofRequest) (s : Server) :
  let resp := fst (generateProofHandler B clk bound s) in
  (status resp = StatusOK /\ exists p, body resp = ProofBody p) \/
  ((status resp = StatusBadRequest \/ status resp = StatusInternalServerError) /\
   exists msg, body resp = ErrorBody msg).
Proof.
  unfold generateProofHandler.
  destruct bound as [req |]; [| right; simpl; eauto].
  destruct (validateProofRequest (t_validate clk) req); [right; simpl; eauto |].
  destruct (Get B (t_get clk) req (proofCache s)) as [[r |] pc'].
  - left. simpl. eauto.
  - destruct (generateProof_shape B clk req s) as [(H1 & H2 & _) | (H1 & H2 & _)];
      [left | right]; auto.
Qed.

(** X5. An answer other than 200 leaves the proof cache exactly as it
    was. *)
Theorem handler_error_leaves_cache_unchanged
    (B : Backend) (clk : Clock) (bound : option ProofRequest) (s : Server) :
  status (fst (generateProofHandler B clk bound s)) <> StatusOK ->
  proofCache (snd (generateProofHandler B clk bound s)) = proofCache s.
Proof.
  unfold generateProofHandler.
  destruct bound as [req |]; [| reflexivity].
  destruct (validateProofRequest (t_validate clk) req); [reflexivity |].
  destruct (Get B (t_get clk) req (proofCache s)) as [[r |] pc'].
  - simpl. intros H. contradiction H. reflexivity.
  - intros H.
    destruct (generateProof_shape B clk req s) as [(H1 & _) | (_ & _ & _ & Hc)];
      [contradiction | exact Hc].
Qed.

Lemma handler_error_leaves_cache_unchanged_witness :
  proofCache (snd (generateProofHandler toy_backend later_clock
                     (Some (with_amounts "2000000" "1000000" sample_request))
                     sample_server))
  = proofCache sample_server.
Proof.
  apply (handler_error_leaves_cache_unchanged toy_backend later_clock
           (Some (with_amounts "2000000" "1000000" sample_request)) sample_server).
  vm_compute. discriminate.
Defined.

(** X6. The calls a request makes into the proving pipeline are a prefix
    of [preVerifySignature], [NewWitness], [Prove], [Verify], in that
    order; an answer 200 comes after none of them (cache hit) or after all
    four. *)
Theorem handler_calls_follow_pipeline
    (B : Backend) (clk : Clock) (bound : option ProofRequest) (s : Server) :
  exists n : nat,
    (n <= 4)%nat /\
    calls (snd (generateProofHandler B clk bound s)) = (calls s ++ take n pipeline)%list /\
    (status (fst (generateProofHandler B clk bound s)) = StatusOK -> n = 0%nat \/ n = 4%nat).
Proof.
  unfold generateProofHandler.
  destruct bound as [req |].
  2: { exists 0%nat. simpl. rewrite app_nil_r. auto with lia. }
  destruct (validateProofRequest (t_validate clk) req).
  { exists 0%nat. simpl. rewrite app_nil_r. auto with lia. }
  destruct (Get B (t_get clk) req (proofCache s)) as [[r |] pc'].
  { exists 0%nat. simpl. rewrite app_nil_r. auto with lia. }
  destruct (generateProof_shape B clk req s)
    as [(_ & _ & Hc & _) | (Hst & _ & (n & Hn & Hc) & _)].
  - exists 4%nat. split; [lia |]. split; [exact Hc | auto].
  - exists n. split; [lia |]. split; [exact Hc |].
    intros Hok. unfold StatusOK, StatusBadRequest, StatusInternalServerError in *.
    destruct Hst as [Hst | Hst]; rewrite Hst in Hok; discriminate.
Qed.

(** ** Counters and cache size *)

Lemma evictLRU_size (now : Z) (pc : ProofCache) :
  (size (cache (evictLRU now pc)) <= size (cache pc))%nat.
Proof.
  unfold evictLRU. destruct (String.eqb _ ""); [lia |]. simpl.
  rewrite map_size_delete. destruct (cache pc !! _); simpl; lia.
Qed.

Lemma Set_size (B : Backend) (evictNow now : Z) (req : ProofRequest)
    (resp : ProofResponse) (pc : ProofCache) :
  (size (cache (ProofCache_Set B evictNow now req resp pc)) <= S (size (cache pc)))%nat.
Proof.
  unfold ProofCache_Set. simpl. rewrite map_size_insert.
  destruct (maxSize pc <=? _)%Z.
  - pose proof (evictLRU_size evictNow pc).
    destruct (cache (evictLRU evictNow pc) !! _); simpl; lia.
  - destruct (cache pc !! _); simpl; lia.
Qed.

Lemma generateProof_counters (B : Backend) (clk : Clock) (req : ProofRequest) (s : Server) :
  counters_consistent s -> counters_consistent (snd (generateProof B clk req s)).
Proof.
  unfold counters_consistent. intros (Hsz & Htot & Hlen & Herr).
  unfold generateProof.
  destruct (preVerifySignature B req) as [err |]; [simpl; lia |].
  destruct (frontend_NewWitness B (assignment_of req)) as [w |]; [| simpl; lia].
  destruct (groth16_Prove B w) as [proof |]; [| simpl; lia].
  destruct (witness_Public B w) as [publicWitness |];
    [| simpl; rewrite length_app; simpl; lia].
  destruct (groth16_Verify B proof publicWitness);
    [| simpl; rewrite length_app; simpl; lia].
  cbn [negb]. destruct (json_Marshal B proof) as [proofBytes |].
  - cbn -[ProofCache_Set]. rewrite !length_app. cbn [length].
    match goal with
    | |- context [ProofCache_Set ?b ?e ?n ?r ?p ?c] =>
        pose proof (Set_size b e n r p c) as HS
    end.
    lia.
  - simpl. rewrite !length_app. simpl. lia.
Qed.

Lemma handler_counters (B : Backend) (clk : Clock) (bound : option ProofRequest)
    (s : Server) :
  counters_consistent s ->
  counters_consistent (snd (generateProofHandler B clk bound s)).
Proof.
  intros Hinv. unfold generateProofHandler.
  destruct bound as [req |].
  2: { unfold counters_consistent in *. simpl. lia. }
  destruct (validateProofRequest (t_validate clk) req).
  { unfold counters_consistent in *. simpl. lia. }
  destruct (Get B (t_get clk) req (proofCache s)) as [[r |] pc'] eqn:Hget.
  - apply Get_Some_inv in Hget. destruct Hget as (e & He & _ & _ & ->).
    unfold counters_consistent in *. simpl.
    rewrite map_size_insert_Some by eauto. exact Hinv.
  - apply generateProof_counters. exact Hinv.
Qed.

(** X7. In every reachable state the cache holds no more entries than
    proofs were counted as generated; that count equals the number of
    verification-time samples, which is at most the number of
    proving-time samples; and the error count is not negative. *)
Theorem reachable_counters_consistent (B : Backend) (s : Server) :
  reachable B s ->
  Z.of_nat (size (cache (proofCache s))) <= proofGenerationTotal s /\
  proofGenerationTotal s = Z.of_nat (length (proofVerificationDuration s)) /\
  (length (proofVerificationDuration s) <= length (proofGenerationDuration s))%nat /\
  0 <= proofGenerationErrors s.
Proof.
  intros H. change (counters_consistent s).
  induction H as [| s s' _ IH Hstep].
  - unfold counters_consistent. simpl. rewrite map_size_empty. lia.
  - destruct Hstep as [clk bound s | now s].
    + apply handler_counters. exact IH.
    + unfold counters_consistent in *. simpl.
      pose proof (map_size_filter
                    (fun kv : string * CachedProof.t =>
                       negb (ttl (proofCache s) <? now - CachedProof.GeneratedAt (snd kv))%Z
                       = true)
                    (cache (proofCache s))).
      lia.
Qed.

Lemma reachable_counters_consistent_witness :
  Z.of_nat (size (cache (proofCache sample_server))) <= proofGenerationTotal sample_server /\
  proofGenerationTotal sample_server
  = Z.of_nat (length (proofVerificationDuration sample_server)) /\
  (length (proofVerificationDuration sample_server)
   <= length (proofGenerationDuration sample_server))%nat /\
  0 <= proofGenerationErrors sample_server.
Proof.
  apply (reachable_counters_consistent toy_backend sample_server).
  exact sample_server_reachable.
Defined.

(** ** Storing, looking up and evicting *)

(** X8. What [Set] stores under a request's key is what [Get] returns for
    that request, with a generation time of 0, until more than the TTL has
    passed since the store, and a miss from then on; this holds whatever
    the cache held and however full it was. *)
Theorem Set_then_Get (B : Backend) (evictNow setNow now : Z) (req : ProofRequest)
    (resp : ProofResponse) (pc : ProofCache) :
  fst (Get B now req (ProofCache_Set B evictNow setNow req resp pc))
  = if (ttl pc <? now - setNow)%Z then None
    else Some {| Proof := Proof resp; PublicInputs := PublicInputs resp;
                 GenerationTime := 0 |}.
Proof.
  unfold Get. rewrite Set_lookup_key, Set_ttl. cbn [CachedProof.GeneratedAt].
  destruct (ttl pc <? now - setNow)%Z; reflexivity.
Qed.

(** X9. [Get] never adds, removes or refreshes an entry: under every key
    the proof, the public inputs and the time of generation are what they
    were, so a hit does not prolong an entry's life; and a miss leaves the
    cache as it was. *)
Theorem Get_changes_access_counts_only
    (B : Backend) (now : Z) (req : ProofRequest) (pc : ProofCache) :
  (forall key,
      entry_content <$> (cache (snd (Get B now req pc)) !! key)
      = entry_content <$> (cache pc !! key)) /\
  ttl (snd (Get B now req pc)) = ttl pc /\
  maxSize (snd (Get B now req pc)) = maxSize pc /\
  (fst (Get B now req pc) = None -> snd (Get B now req pc) = pc).
Proof.
  unfold Get.
  destruct (cache pc !! generateCacheKey B req) as [e |] eqn:He; [| auto].
  destruct (ttl pc <? now - CachedProof.GeneratedAt e)%Z; [auto |].
  simpl. repeat split; try discriminate.
  intros key. destruct (decide (generateCacheKey B req = key)) as [<- | Hne].
  - rewrite lookup_insert_eq, He. reflexivity.
  - rewrite lookup_insert_ne by exact Hne. reflexivity.
Qed.

(** What the loop of [evictLRU] leaves in its two variables. *)
Lemma evictLRU_fold (now : Z) (m : gmap string CachedProof.t) :
  let oldest :=
    map_fold (fun key cached (acc : string * Z) =>
                if (CachedProof.GeneratedAt cached <? snd acc)%Z
                then (key, CachedProof.GeneratedAt cached) else acc)
             ("", now) m in
  (forall key e, m !! key = Some e -> snd oldest <= CachedProof.GeneratedAt e) /\
  ((oldest = ("", now) /\
    forall key e, m !! key = Some e -> now <= CachedProof.GeneratedAt e) \/
   (exists e, m !! fst oldest = Some e /\
              CachedProof.GeneratedAt e = snd oldest /\ snd oldest < now)).
Proof.
  cbv zeta. apply (map_fold_weak_ind (fun (acc : string * Z) m =>
    (forall key e, m !! key = Some e -> snd acc <= CachedProof.GeneratedAt e) /\
    ((acc = ("", now) /\
      forall key e, m !! key = Some e -> now <= CachedProof.GeneratedAt e) \/
     (exists e, m !! fst acc = Some e /\
                CachedProof.GeneratedAt e = snd acc /\ snd acc < now)))).
  - split.
    + intros key e H. rewrite lookup_empty in H. discriminate.
    + left. split; [reflexivity |]. intros key e H. rewrite lookup_empty in H. discriminate.
  - intros i x m' [k0 t0] Hi (Hmin & Hcase). cbn [snd fst] in *.
    destruct (Z.ltb_spec (CachedProof.GeneratedAt x) t0) as [Hlt | Hge]; cbn [snd fst].
    + split.
      * intros key e H. apply lookup_insert_Some in H.
        destruct H as [[_ <-] | [_ H]]; [lia |]. specialize (Hmin _ _ H). lia.
      * right. exists x. rewrite lookup_insert_eq. split; [reflexivity |].
        split; [reflexivity |].
        destruct Hcase as [[Heq _] | (e & _ & _ & Hnow)]; [inversion Heq; subst; lia | lia].
    + split.
      * intros key e H. apply lookup_insert_Some in H.
        destruct H as [[_ <-] | [_ H]]; [lia | exact (Hmin _ _ H)].
      * destruct Hcase as [[Heq Hall] | (e & He & Het & Hnow)].
        -- left. split; [exact Heq |]. inversion Heq; subst.
           intros key e H. apply lookup_insert_Some in H.
           destruct H as [[_ <-] | [_ H]]; [lia | exact (Hall _ _ H)].
        -- right. exists e. split; [| auto].
           rewrite lookup_insert_ne; [exact He |]. intros ->. congruence.
Qed.

(** X10. [evictLRU] removes at most one entry, and the entry it removes is
    one generated earliest, before the clock reading of the call; how
    often an entry was served plays no part. *)
Theorem evictLRU_removes_an_oldest_entry
    (now : Z) (pc : ProofCache) (key : string) (e : CachedProof.t) :
  cache pc !! key = Some e ->
  cache (evictLRU now pc) !! key = None ->
  cache (evictLRU now pc) = delete key (cache pc) /\
  CachedProof.GeneratedAt e < now /\
  forall key' e', cache pc !! key' = Some e' ->
                  CachedProof.GeneratedAt e <= CachedProof.GeneratedAt e'.
Proof.
  intros He Hgone. unfold evictLRU in *.
  pose proof (evictLRU_fold now (cache pc)) as Hfold. cbv zeta in Hfold.
  set (oldest := map_fold _ _ _) in *.
  destruct Hfold as (Hmin & Hcase).
  destruct (String.eqb (fst oldest) "") eqn:Hempty.
  { rewrite He in Hgone. discriminate. }
  simpl in Hgone |- *.
  apply lookup_delete_None in Hgone. destruct Hgone as [Hk | Hk]; [| congruence].
  subst key.
  destruct Hcase as [[Heq _] | (e0 & He0 & Het & Hnow)].
  { rewrite Heq in Hempty. discriminate. }
  rewrite He in He0. inversion He0; subst e0.
  split; [reflexivity |]. split; [lia |].
  intros key' e' H. rewrite Het. exact (Hmin _ _ H).
Qed.

Lemma evictLRU_removes_an_oldest_entry_witness :
  cache (evictLRU (sample_now + 1) two_entry_cache)
  = delete "old" (cache two_entry_cache).
Proof.
  apply (evictLRU_removes_an_oldest_entry (sample_now + 1) two_entry_cache "old"
           (CachedProof.mk "p" [] (sample_now - 10) 5)).
  - vm_compute. reflexivity.
  - vm_compute. reflexivity.
Defined.

(** X11. [Set] keeps a cache within its capacity: if it holds at most
    [maxSize >= 1] entries, none under the empty key and all generated
    before the clock reading of the eviction, it holds at most [maxSize]
    entries afterwards. *)
Theorem Set_keeps_capacity (B : Backend) (evictNow now : Z) (req : ProofRequest)
    (resp : ProofResponse) (pc : ProofCache) :
  1 <= maxSize pc ->
  Z.of_nat (size (cache pc)) <= maxSize pc ->
  cache pc !! "" = None ->
  (forall key e, cache pc !! key = Some e -> CachedProof.GeneratedAt e < evictNow) ->
  Z.of_nat (size (cache (ProofCache_Set B evictNow now req resp pc))) <= maxSize pc.
Proof.
  intros Hcap Hsize Hnokey Hold. unfold ProofCache_Set. cbn [cache set_cache].
  rewrite map_size_insert.
  destruct (maxSize pc <=? Z.of_nat (size (cache pc)))%Z eqn:Hfull.
  2: { apply Z.leb_gt in Hfull.
       destruct (cache pc !! generateCacheKey B req); unfold id; lia. }
  apply Z.leb_le in Hfull.
  assert (Hevict : (size (cache (evictLRU evictNow pc)) < size (cache pc))%nat).
  { unfold evictLRU.
    pose proof (evictLRU_fold evictNow (cache pc)) as Hfold. cbv zeta in Hfold.
    set (oldest := map_fold _ _ _) in *.
    destruct Hfold as (_ & Hcase).
    destruct Hcase as [[_ Hall] | (e0 & He0 & _ & _)].
    - exfalso.
      assert (Hne : size (cache pc) <> 0%nat) by lia.
      apply map_size_ne_0_lookup in Hne. destruct Hne as (k & [e He]).
      specialize (Hall _ _ He). specialize (Hold _ _ He). lia.
    - destruct (String.eqb_spec (fst oldest) "") as [Heq | Hneq].
      + rewrite Heq in He0. congruence.
      + cbn [cache set_cache]. rewrite map_size_delete, He0. cbn [Nat.pred].
        assert (size (cache pc) <> 0%nat) by lia. lia. }
  destruct (cache (evictLRU evictNow pc) !! generateCacheKey B req); unfold id; lia.
Qed.

Lemma Set_keeps_capacity_witness :
  Z.of_nat (size (cache (ProofCache_Set toy_backend (sample_now + 1) (sample_now + 1)
                           sample_request (response_of_entry sample_entry)
                           two_entry_cache)))
  <= 2.
Proof.
  apply (Set_keeps_capacity toy_backend (sample_now + 1) (sample_now + 1) sample_request
           (response_of_entry sample_entry) two_entry_cache).
  - vm_compute. discriminate.
  - vm_compute. discriminate.
  - vm_compute. reflexivity.
  - intros key e H.
    change (cache two_entry_cache)
      with (<["old" := CachedProof.mk "p" [] (sample_now - 10) 5]>
              (<["new" := sample_entry]> (∅ : gmap string CachedProof.t))) in H.
    apply lookup_insert_Some in H. destruct H as [[_ <-] | [_ H]]; [vm_compute; reflexivity |].
    apply lookup_insert_Some in H. destruct H as [[_ <-] | [_ H]]; [vm_compute; reflexivity |].
    rewrite lookup_empty in H. discriminate.
Defined.

(** X12. When no entry was generated strictly before the clock reading
    of the eviction, [evictLRU] evicts nothing, and [Set] of a new key
    grows the cache by one entry whatever [maxSize] is. *)
Theorem Set_grows_when_nothing_is_older
    (B : Backend) (evictNow now : Z) (req : ProofRequest)
    (resp : ProofResponse) (pc : ProofCache) :
  (forall key e, cache pc !! key = Some e -> evictNow <= CachedProof.GeneratedAt e) ->
  cache pc !! generateCacheKey B req = None ->
  size (cache (ProofCache_Set B evictNow now req resp pc)) = S (size (cache pc)).
Proof.
  intros Hyoung Hnew.
  assert (Hev : evictLRU evictNow pc = pc).
  { unfold evictLRU.
    pose proof (evictLRU_fold evictNow (cache pc)) as Hfold. cbv zeta in Hfold.
    set (oldest := map_fold _ _ _) in *.
    destruct Hfold as (_ & [[Heq _] | (e0 & He0 & Het & Hlt)]).
    - rewrite Heq. reflexivity.
    - specialize (Hyoung _ _ He0). lia. }
  unfold ProofCache_Set. cbn [cache set_cache]. rewrite Hev.
  destruct (maxSize pc <=? _)%Z; apply map_size_insert_None; exact Hnew.
Qed.

Lemma Set_grows_when_nothing_is_older_witness :
  size (cache (ProofCache_Set toy_backend (sample_now - 10) sample_now sample_request
                 (response_of_entry sample_entry) two_entry_cache))
  = 3%nat.
Proof.
  apply (Set_grows_when_nothing_is_older toy_backend (sample_now - 10) sample_now
           sample_request (response_of_entry sample_entry) two_entry_cache).
  - intros key e H.
    change (cache two_entry_cache)
      with (<["old" := CachedProof.mk "p" [] (sample_now - 10) 5]>
              (<["new" := sample_entry]> (∅ : gmap string CachedProof.t))) in H.
    apply lookup_insert_Some in H. destruct H as [[_ <-] | [_ H]]; [vm_compute; discriminate |].
    apply lookup_insert_Some in H. destruct H as [[_ <-] | [_ H]]; [vm_compute; discriminate |].
    rewrite lookup_empty in H. discriminate.
  - vm_compute. reflexivity.
Defined.

(** X13. A sweep of [cleanup] is invisible to later lookups: at any time
    not before the sweep, [Get] answers the same on the swept cache as on
    the cache before the sweep. *)
Theorem cleanup_is_invisible_to_Get
    (B : Backend) (sweep now : Z) (req : ProofRequest) (pc : ProofCache) :
  sweep <= now ->
  fst (Get B now req (cleanup sweep pc)) = fst (Get B now req pc).
Proof.
  intros Hle. unfold Get, cleanup. cbn [cache ttl set_cache].
  destruct (cache pc !! generateCacheKey B req) as [e |] eqn:He.
  - destruct (Z.ltb_spec (ttl pc) (sweep - CachedProof.GeneratedAt e)) as [Hexp | Hlive].
    + rewrite (proj2 (map_lookup_filter_None _ _ _)).
      * destruct (Z.ltb_spec (ttl pc) (now - CachedProof.GeneratedAt e)); [reflexivity | lia].
      * right. intros e' He'. rewrite He in He'. inversion He'; subst e'.
        cbn [snd]. destruct (Z.ltb_spec (ttl pc) (sweep - CachedProof.GeneratedAt e));
          [simpl; discriminate | lia].
    + rewrite (proj2 (map_lookup_filter_Some _ _ _ e)).
      * destruct (ttl pc <? now - CachedProof.GeneratedAt e)%Z; reflexivity.
      * split; [exact He |]. cbn [snd].
        destruct (Z.ltb_spec (ttl pc) (sweep - CachedProof.GeneratedAt e));
          [lia | reflexivity].
  - rewrite (proj2 (map_lookup_filter_None _ _ _)); [reflexivity |].
    left. exact He.
Qed.

Lemma cleanup_is_invisible_to_Get_witness :
  fst (Get toy_backend (sample_now + 2 * hour) sample_request
         (cleanup (sample_now + 2 * hour) (proofCache sample_server)))
  = fst (Get toy_backend (sample_now + 2 * hour) sample_request (proofCache sample_server)).
Proof.
  apply (cleanup_is_invisible_to_Get toy_backend (sample_now + 2 * hour)
           (sample_now + 2 * hour) sample_request (proofCache sample_server)).
  lia.
Defined.

(** ** The cache key as a concatenation *)

(** X14. The cache key hashes [minAmount], [recipientKey] and
    [maxBlockAge] joined without separators, so requests whose joined
    strings coincide share a key even when the fields differ: after the
    first is proved afresh, the second, valid and within the TTL, is
    answered 200 with the first's proof and a public-input vector that
    begins with the first's [minAmount]. *)
Theorem cache_key_joins_fields_without_separators
    (B : Backend) (clk1 clk2 : Clock) (r1 r2 : ProofRequest) (s : Server) :
  MinAmount r1 ++ RecipientKey B r1 ++ MaxBlockAge r1
  = MinAmount r2 ++ RecipientKey B r2 ++ MaxBlockAge r2 ->
  fst (Get B (t_get clk1) r1 (proofCache s)) = None ->
  status (fst (generateProofHandler B clk1 (Some r1) s)) = StatusOK ->
  validateProofRequest (t_validate clk2) r2 = None ->
  t_get clk2 - t_set clk1 <= ttl (proofCache s) ->
  generateCacheKey B r1 = generateCacheKey B r2 /\
  exists p1 p2,
    fst (generateProofHandler B clk1 (Some r1) s)
    = {| status := StatusOK; body := ProofBody p1 |} /\
    fst (generateProofHandler B clk2 (Some r2)
           (snd (generateProofHandler B clk1 (Some r1) s)))
    = {| status := StatusOK; body := ProofBody p2 |} /\
    Proof p2 = Proof p1 /\
    PublicInputs p2
    = [MinAmount r1; RecipientKeyX r1; RecipientKeyY r1; MaxBlockAge r1;
       Sprintf_d (CurrentTime r1)].
Proof.
  intros Hdata Hmiss Hok Hval Hage.
  assert (Hkey : generateCacheKey B r1 = generateCacheKey B r2)
    by (unfold generateCacheKey; rewrite Hdata; reflexivity).
  split; [exact Hkey |].
  assert (Hfresh : exists pb,
             fst (generateProofHandler B clk1 (Some r1) s)
             = {| status := StatusOK; body := ProofBody (fresh_response clk1 r1 pb) |} /\
             proofCache (snd (generateProofHandler B clk1 (Some r1) s))
             = ProofCache_Set B (t_evict clk1) (t_set clk1) r1
                 (fresh_response clk1 r1 pb) (proofCache s)).
  { revert Hok. unfold generateProofHandler.
    destruct (validateProofRequest (t_validate clk1) r1); [discriminate |].
    destruct (Get B (t_get clk1) r1 (proofCache s)) as [[r |] pc'] eqn:Hget;
      [discriminate |].
    intros Hok.
    destruct (generateProof_cases B clk1 r1 s) as [(Hne & _) | Hgen]; [contradiction |].
    destruct Hgen as (w & proof & pw & pb & _ & _ & _ & _ & _ & _ & Hr1 & Hc).
    exists pb. auto. }
  destruct Hfresh as (pb & Hr1 & Hc).
  destruct (handler_second_hit B clk1 clk2 r1 r2 s Hkey Hok Hval) as (p1 & Hp1 & Hr2 & _).
  { intros e He. rewrite Hc, Set_lookup_key in He. inversion He; subst. exact Hage. }
  exists p1. eexists. split; [exact Hp1 |]. split; [exact Hr2 |].
  rewrite Hr1 in Hp1. inversion Hp1; subst. simpl. auto.
Qed.

Lemma cache_key_joins_fields_without_separators_witness :
  MinAmount split_request_1 <> MinAmount split_request_2 /\
  generateCacheKey toy_backend split_request_1 = generateCacheKey toy_backend split_request_2 /\
  exists p1 p2,
    fst (generateProofHandler toy_backend (clock_at sample_now) (Some split_request_1)
           initial_Server)
    = {| status := StatusOK; body := ProofBody p1 |} /\
    fst (generateProofHandler toy_backend (clock_at sample_now) (Some split_request_2)
           (snd (generateProofHandler toy_backend (clock_at sample_now)
                   (Some split_request_1) initial_Server)))
    = {| status := StatusOK; body := ProofBody p2 |} /\
    Proof p2 = Proof p1 /\
    PublicInputs p2 = ["1"; "23"; "7"; "60"; Sprintf_d 1700000000].
Proof.
  split; [discriminate |].
  apply (cache_key_joins_fields_without_separators toy_backend (clock_at sample_now)
           (clock_at sample_now) split_request_1 split_request_2 initial_Server).
  - vm_compute. reflexivity.
  - vm_compute. reflexivity.
  - vm_compute. reflexivity.
  - vm_compute. reflexivity.
  - vm_compute. discriminate.
Defined.

(** ** The rate limiter over its whole life *)

Lemma Allow_Some_inv (created now : Z) (ip : string) (rl rl' : RateLimiter) (ok : bool) :
  Allow created now ip rl = Some (ok, rl') ->
  period rl <> 0 /\
  maxRate rl' = maxRate rl /\ period rl' = period rl /\
  exists b t,
    buckets rl' = <[ip := b]> (buckets rl) /\
    (t <= maxRate rl \/ exists b0, buckets rl !! ip = Some b0 /\ t = tokens b0) /\
    ok = (0 <? t)%Z /\
    tokens b = if ok then t - 1 else t.
Proof.
  unfold Allow.
  destruct (Z.eqb_spec (period rl) 0) as [| Hp]; [discriminate |].
  set (b0 := match buckets rl !! ip with
             | Some b => b
             | None => {| tokens := maxRate rl; lastRefill := created |}
             end).
  assert (Hb0 : tokens b0 <= maxRate rl \/
                exists b1, buckets rl !! ip = Some b1 /\ tokens b0 = tokens b1).
  { unfold b0. destruct (buckets rl !! ip) as [b1 |]; [right; eauto | left; simpl; lia]. }
  set (add := wrap64 (wrap64 (Z.quot (now - lastRefill b0) (period rl)) * maxRate rl)).
  set (b1 := if (0 <? add)%Z then _ else b0).
  assert (Hb1 : tokens b1 <= maxRate rl \/
                exists b2, buckets rl !! ip = Some b2 /\ tokens b1 = tokens b2).
  { unfold b1. destruct (0 <? add)%Z; [| exact Hb0].
    left. cbn [tokens].
    destruct (Z.ltb_spec (maxRate rl) (wrap64 (tokens b0 + add))); lia. }
  destruct (0 <? tokens b1)%Z eqn:Hpos; intros H; inversion H; subst.
  - split; [exact Hp |]. split; [reflexivity |]. split; [reflexivity |].
    eexists. exists (tokens b1). split; [reflexivity |].
    split; [exact Hb1 |]. split; [symmetry; exact Hpos | reflexivity].
  - split; [exact Hp |]. split; [reflexivity |]. split; [reflexivity |].
    exists b1, (tokens b1). split; [reflexivity |].
    split; [exact Hb1 |]. split; [symmetry; exact Hpos | reflexivity].
Qed.

Lemma Allow_None_inv (created now : Z) (ip : string) (rl : RateLimiter) :
  Allow created now ip rl = None -> period rl = 0.
Proof.
  unfold Allow. destruct (Z.eqb_spec (period rl) 0) as [E | _]; [intros _; exact E |].
  destruct (0 <? tokens _)%Z; discriminate.
Qed.

Lemma RateLimiter_reachable_bounds (capacity refill : Z) (rl : RateLimiter) :
  RateLimiter_reachable capacity refill rl ->
  maxRate rl = capacity /\ period rl = refill /\
  forall ip b, buckets rl !! ip = Some b -> tokens b <= capacity.
Proof.
  induction 1 as [| created now ip rl ok rl' _ IH HA | now rl _ IH].
  - simpl. repeat split. intros ip b H. rewrite lookup_empty in H. discriminate.
  - destruct IH as (Hm & Hp & Hb).
    apply Allow_Some_inv in HA.
    destruct HA as (_ & Hm' & Hp' & b & t & Hbk & Hbound & Hok & Htok).
    split; [congruence |]. split; [congruence |].
    intros ip' b' H. rewrite Hbk in H. apply lookup_insert_Some in H.
    destruct H as [[_ <-] | [_ H]]; [| exact (Hb _ _ H)].
    assert (Ht : t <= capacity).
    { destruct Hbound as [Hle | (b0 & Hb0 & ->)]; [lia | exact (Hb _ _ Hb0)]. }
    rewrite Htok. destruct ok; lia.
  - destruct IH as (Hm & Hp & Hb). simpl. repeat split; try assumption.
    intros ip b H. apply map_lookup_filter_Some in H. destruct H as [H _].
    exact (Hb _ _ H).
Qed.

(** X15. However long a client stays away and whatever the clock does, no
    bucket of a limiter ever holds more than [maxRate] tokens, and the
    limiter's capacity and period never change. *)
Theorem RateLimiter_tokens_never_exceed_maxRate
    (capacity refill : Z) (rl : RateLimiter) (ip : string) (b : TokenBucket) :
  RateLimiter_reachable capacity refill rl ->
  buckets rl !! ip = Some b ->
  tokens b <= capacity /\ maxRate rl = capacity /\ period rl = refill.
Proof.
  intros Hr Hb.
  destruct (RateLimiter_reachable_bounds capacity refill rl Hr) as (Hm & Hp & Hbound).
  split; [exact (Hbound ip b Hb) |]. split; assumption.
Qed.

Lemma AllowRun_reachable (capacity refill : Z) (ip : string) (clock : list (Z * Z)) :
  forall rl oks rl',
    RateLimiter_reachable capacity refill rl ->
    AllowRun clock ip rl = Some (oks, rl') ->
    RateLimiter_reachable capacity refill rl'.
Proof.
  induction clock as [| [created now] clock IH]; intros rl oks rl' Hr Hrun.
  - simpl in Hrun. inversion Hrun; subst. exact Hr.
  - simpl in Hrun.
    destruct (Allow created now ip rl) as [[ok rl1] |] eqn:HA; [| discriminate].
    destruct (AllowRun clock ip rl1) as [[oks1 rl2] |] eqn:HR; [| discriminate].
    inversion Hrun; subst.
    eapply IH; [| exact HR].
    eapply RateLimiter_reachable_Allow; [exact Hr | exact HA].
Qed.

Lemma busy_limiter_reachable : RateLimiter_reachable 10 minute busy_limiter.
Proof.
  apply (AllowRun_reachable 10 minute "203.0.113.7"
           [(0, 0); (1, 1); (2, 2); (3, 3); (4, 4); (5, 5); (6, 6); (7, 7);
            (8, 8); (9, 9); (10, 10)]
           (NewRateLimiter 10 minute)
           [true; true; true; true; true; true; true; true; true; true; false]).
  - apply RateLimiter_reachable_new.
  - vm_compute. reflexivity.
Qed.

Lemma busy_limiter_bucket :
  buckets busy_limiter !! "203.0.113.7" = Some {| tokens := 0; lastRefill := 0 |}.
Proof. vm_compute. reflexivity. Qed.

Lemma RateLimiter_tokens_never_exceed_maxRate_witness :
  tokens {| tokens := 0; lastRefill := 0 |} <= 10 /\
  maxRate busy_limiter = 10 /\ period busy_limiter = minute.
Proof.
  apply (RateLimiter_tokens_never_exceed_maxRate 10 minute busy_limiter "203.0.113.7").
  - exact busy_limiter_reachable.
  - exact busy_limiter_bucket.
Defined.

(** X16. A limiter made with a capacity of zero or less never allows a
    request. *)
Theorem RateLimiter_without_capacity_denies_all
    (capacity refill : Z) (rl rl' : RateLimiter) (created now : Z) (ip : string) (ok : bool) :
  RateLimiter_reachable capacity refill rl ->
  capacity <= 0 ->
  Allow created now ip rl = Some (ok, rl') ->
  ok = false.
Proof.
  intros Hr Hcap HA.
  destruct (RateLimiter_reachable_bounds capacity refill rl Hr) as (Hm & _ & Hb).
  apply Allow_Some_inv in HA. destruct HA as (_ & _ & _ & b & t & _ & Hbound & Hok & _).
  assert (Ht : t <= capacity).
  { destruct Hbound as [Hle | (b0 & Hb0 & ->)]; [lia | exact (Hb _ _ Hb0)]. }
  rewrite Hok. apply Z.ltb_ge. lia.
Qed.

Lemma RateLimiter_without_capacity_denies_all_witness :
  fst <$> Allow 0 (5 * minute) "203.0.113.7" (NewRateLimiter 0 minute) = Some false.
Proof.
  destruct (Allow 0 (5 * minute) "203.0.113.7" (NewRateLimiter 0 minute))
    as [[ok rl'] |] eqn:HA.
  - rewrite (RateLimiter_without_capacity_denies_all 0 minute (NewRateLimiter 0 minute) rl'
               0 (5 * minute) "203.0.113.7" ok).
    + reflexivity.
    + apply RateLimiter_reachable_new.
    + lia.
    + exact HA.
  - vm_compute in HA. discriminate HA.
Defined.

(** X17. A sweep of [cleanup] forgets a client whose bucket was last
    refilled more than ten minutes before: the client's next request finds
    no bucket and is allowed from a full one, even if the forgotten bucket
    was empty. *)
Theorem RateLimiter_cleanup_forgets_idle_client
    (sweep created now : Z) (ip : string) (rl : RateLimiter) (b : TokenBucket) :
  buckets rl !! ip = Some b ->
  10 * minute < sweep - lastRefill b ->
  0 < maxRate rl ->
  0 < period rl ->
  0 <= now - created < period rl ->
  buckets (RateLimiter_cleanup sweep rl) !! ip = None /\
  exists rl',
    Allow created now ip (RateLimiter_cleanup sweep rl) = Some (true, rl') /\
    buckets rl' !! ip = Some {| tokens := maxRate rl - 1; lastRefill := created |}.
Proof.
  intros Hb Hidle Hm Hp He.
  assert (Hgone : buckets (RateLimiter_cleanup sweep rl) !! ip = None).
  { unfold RateLimiter_cleanup. cbn [buckets set_buckets].
    apply map_lookup_filter_None. right. intros b' Hb'. rewrite Hb in Hb'.
    inversion Hb'; subst b'. cbn [snd].
    destruct (Z.ltb_spec (10 * minute) (sweep - lastRefill b)); [simpl; discriminate | lia]. }
  split; [exact Hgone |].
  pose proof (Allow_within_period created now ip (RateLimiter_cleanup sweep rl)) as HA.
  rewrite Hgone in HA. cbn [tokens lastRefill] in HA.
  change (maxRate (RateLimiter_cleanup sweep rl)) with (maxRate rl) in HA.
  change (period (RateLimiter_cleanup sweep rl)) with (period rl) in HA.
  specialize (HA Hp He).
  destruct (Z.ltb_spec 0 (maxRate rl)) as [_ | Hbad]; [| lia].
  eexists. split; [exact HA |]. cbn [buckets set_buckets]. apply lookup_insert_eq.
Qed.

Lemma RateLimiter_cleanup_forgets_idle_client_witness :
  buckets (RateLimiter_cleanup (11 * minute) (set_buckets
             (<["203.0.113.7" := {| tokens := 0; lastRefill := 0 |}]> ∅)
             (NewRateLimiter 10 hour))) !! "203.0.113.7" = None /\
  exists rl',
    Allow (11 * minute) (11 * minute) "203.0.113.7"
      (RateLimiter_cleanup (11 * minute) (set_buckets
         (<["203.0.113.7" := {| tokens := 0; lastRefill := 0 |}]> ∅)
         (NewRateLimiter 10 hour)))
    = Some (true, rl') /\
    buckets rl' !! "203.0.113.7"
    = Some {| tokens := 10 - 1; lastRefill := 11 * minute |}.
Proof.
  apply (RateLimiter_cleanup_forgets_idle_client (11 * minute) (11 * minute) (11 * minute)
           "203.0.113.7"
           (set_buckets (<["203.0.113.7" := {| tokens := 0; lastRefill := 0 |}]> ∅)
              (NewRateLimiter 10 hour))
           {| tokens := 0; lastRefill := 0 |}).
  - vm_compute. reflexivity.
  - vm_compute. reflexivity.
  - vm_compute. reflexivity.
  - vm_compute. reflexivity.
  - vm_compute. split; [discriminate | reflexivity].
Defined.

(** ** The route *)

(** X18. Behind the limiter of [main], [POST /generate-proof] always
    answers, with status 200, 400, 429 or 500; the [activeRequests] gauge
    is back at its value afterwards; and a request answered 429 leaves the
    cache, the counters and the call log untouched. *)
Theorem POST_generate_proof_answers
    (B : Backend) (created now : Z) (clk : Clock) (clientIP : string)
    (bound : option ProofRequest) (p : Process) :
  RateLimiter_reachable 10 minute (rateLimiter p) ->
  exists reply p',
    POST_generate_proof B created now clk clientIP bound p = Some (reply, p') /\
    RateLimiter_reachable 10 minute (rateLimiter p') /\
    activeRequests p' = activeRequests p /\
    (Reply_status reply = StatusOK \/ Reply_status reply = StatusBadRequest \/
     Reply_status reply = StatusTooManyRequests \/
     Reply_status reply = StatusInternalServerError) /\
    (Reply_status reply = StatusTooManyRequests -> server p' = server p).
Proof.
  intros Hr.
  destruct (RateLimiter_reachable_bounds 10 minute _ Hr) as (_ & Hp & _).
  unfold POST_generate_proof, rateLimitMiddleware.
  destruct (Allow created now clientIP (rateLimiter p)) as [[ok rl'] |] eqn:HA.
  2: { exfalso. apply Allow_None_inv in HA. rewrite Hp in HA. discriminate HA. }
  assert (Hr' : RateLimiter_reachable 10 minute rl')
    by (eapply RateLimiter_reachable_Allow; [exact Hr | exact HA]).
  destruct ok.
  - eexists _, _. split; [reflexivity |]. cbn [rateLimiter activeRequests server Reply_status].
    split; [exact Hr' |]. split; [lia |].
    assert (Hst : status (fst (generateProofHandler B clk bound (server p))) = StatusOK \/
                  status (fst (generateProofHandler B clk bound (server p)))
                  = StatusBadRequest \/
                  status (fst (generateProofHandler B clk bound (server p)))
                  = StatusInternalServerError).
    { unfold generateProofHandler.
      destruct bound as [req |]; [| simpl; auto].
      destruct (validateProofRequest (t_validate clk) req); [simpl; auto |].
      destruct (Get B (t_get clk) req (proofCache (server p))) as [[r |] pc']; [simpl; auto |].
      destruct (generateProof_shape B clk req (server p)) as [(H & _) | ([H | H] & _)]; auto. }
    split.
    + destruct Hst as [H | [H | H]]; auto.
    + intros H429. exfalso.
      unfold StatusTooManyRequests, StatusOK, StatusBadRequest,
        StatusInternalServerError in *.
      destruct Hst as [H | [H | H]]; rewrite H in H429; discriminate.
  - eexists _, _. split; [reflexivity |]. cbn [rateLimiter activeRequests server Reply_status].
    split; [exact Hr' |]. split; [reflexivity |]. split; [auto | reflexivity].
Qed.

Lemma POST_generate_proof_answers_witness :
  exists reply p',
    POST_generate_proof toy_backend 11 11 later_clock "203.0.113.7"
      (Some second_request) busy_process = Some (reply, p') /\
    RateLimiter_reachable 10 minute (rateLimiter p') /\
    activeRequests p' = activeRequests busy_process /\
    (Reply_status reply = StatusOK \/ Reply_status reply = StatusBadRequest \/
     Reply_status reply = StatusTooManyRequests \/
     Reply_status reply = StatusInternalServerError) /\
    (Reply_status reply = StatusTooManyRequests -> server p' = server busy_process).
Proof.
  apply (POST_generate_proof_answers toy_backend 11 11 later_clock "203.0.113.7"
           (Some second_request) busy_process).
  exact busy_limiter_reachable.
Defined.

(** ** Bursts across a refill *)

Lemma AllowRun_app (ip : string) (clock1 clock2 : list (Z * Z)) :
  forall (rl rl1 : RateLimiter) (oks1 : list bool),
    AllowRun clock1 ip rl = Some (oks1, rl1) ->
    AllowRun (clock1 ++ clock2) ip rl
    = match AllowRun clock2 ip rl1 with
      | Some (oks2, rl2) => Some ((oks1 ++ oks2)%list, rl2)
      | None => None
      end.
Proof.
  induction clock1 as [| [created now] clock1 IH]; intros rl rl1 oks1 H.
  - simpl in H. inversion H; subst. simpl.
    destruct (AllowRun clock2 ip rl1) as [[oks2 rl2] |]; reflexivity.
  - simpl in H |- *.
    destruct (Allow created now ip rl) as [[ok rl0] |]; [| discriminate].
    destruct (AllowRun clock1 ip rl0) as [[oks rl'] |] eqn:Hrun; [| discriminate].
    inversion H; subst.
    rewrite (IH rl0 rl1 oks Hrun).
    destruct (AllowRun clock2 ip rl1) as [[oks2 rl2] |]; reflexivity.
Qed.

Lemma drain_exact (n : nat) :
  drain (Z.of_nat n) n = repeat true n /\ remaining (Z.of_nat n) n = 0.
Proof.
  induction n as [| n [IHd IHr]]; [split; reflexivity |].
  cbn [drain remaining repeat].
  destruct (Z.ltb_spec 0 (Z.of_nat (S n))) as [_ | H]; [| lia].
  replace (Z.of_nat (S n) - 1) with (Z.of_nat n) by lia.
  rewrite IHd, IHr. split; reflexivity.
Qed.

(** A call a full period or more after the last refill fills the bucket
    and takes one token. *)
Lemma Allow_refill (created now : Z) (ip : string) (rl : RateLimiter) (k T0 : Z) :
  buckets rl !! ip = Some {| tokens := k; lastRefill := T0 |} ->
  0 <= k <= maxRate rl ->
  0 < maxRate rl ->
  0 < period rl ->
  period rl <= now - T0 ->
  (Z.quot (now - T0) (period rl) + 1) * maxRate rl < 2 ^ 63 ->
  Allow created now ip rl
  = Some (true,
          set_buckets (<[ip := {| tokens := maxRate rl - 1; lastRefill := now |}]>
                         (buckets rl)) rl).
Proof.
  intros Hb Hk Hm Hp He Hov. unfold Allow. rewrite Hb. cbn [tokens lastRefill].
  destruct (Z.eqb_spec (period rl) 0) as [E | _]; [lia |].
  set (q := Z.quot (now - T0) (period rl)) in *.
  assert (Hq : 1 <= q).
  { unfold q. rewrite Z.quot_div_nonneg by lia. apply Z.div_le_lower_bound; lia. }
  rewrite (wrap64_small q) by nia.
  rewrite (wrap64_small (q * maxRate rl)) by nia.
  destruct (Z.ltb_spec 0 (q * maxRate rl)) as [_ | H]; [| nia].
  cbn [tokens lastRefill].
  rewrite (wrap64_small (k + q * maxRate rl)) by nia.
  destruct (Z.ltb_spec (maxRate rl) (k + q * maxRate rl)) as [_ | Hle].
  - destruct (Z.ltb_spec 0 (maxRate rl)) as [_ | H]; [reflexivity | lia].
  - assert (Heq : k + q * maxRate rl = maxRate rl) by nia. rewrite Heq.
    destruct (Z.ltb_spec 0 (maxRate rl)) as [_ | H]; [reflexivity | lia].
Qed.

(** X19. The limiter refills a whole bucket at once, so a client can be
    allowed twice its capacity back to back: [n] calls made less than a
    period after its first one, then [n] more starting a period or more
    after it, are all allowed, however close together the two groups
    are. *)
Theorem RateLimiter_allows_double_burst
    (m : nat) (ip : string) (rl : RateLimiter) (created0 now0 created1 now1 : Z)
    (clock1 clock2 : list (Z * Z)) :
  buckets rl !! ip = None ->
  maxRate rl = Z.of_nat (S m) ->
  0 < period rl ->
  length clock1 = m ->
  Forall (fun cn => 0 <= snd cn - created0 < period rl) ((created0, now0) :: clock1) ->
  period rl <= now1 - created0 ->
  (Z.quot (now1 - created0) (period rl) + 1) * Z.of_nat (S m) < 2 ^ 63 ->
  length clock2 = m ->
  Forall (fun cn => 0 <= snd cn - now1 < period rl) clock2 ->
  exists rl',
    AllowRun (((created0, now0) :: clock1) ++ (created1, now1) :: clock2) ip rl
    = Some (repeat true (S m + S m), rl').
Proof.
  intros Hnone Hmax Hp Hlen1 Hall1 He Hov Hlen2 Hall2.
  set (rl0 := set_buckets
                (<[ip := {| tokens := maxRate rl; lastRefill := created0 |}]> (buckets rl)) rl).
  assert (Hb0 : buckets rl0 !! ip
                = Some {| tokens := Z.of_nat (S m); lastRefill := created0 |}).
  { unfold rl0. simpl. rewrite lookup_insert_eq, Hmax. reflexivity. }
  destruct (AllowRun_within_period ip created0 ((created0, now0) :: clock1) rl0
              (Z.of_nat (S m)) Hb0 Hp Hall1)
    as (rl1 & Hrun1 & Hb1 & Hm1 & Hp1).
  cbn [length] in Hrun1, Hb1. rewrite Hlen1 in Hrun1, Hb1.
  destruct (drain_exact (S m)) as [Hd Hr]. rewrite Hd in Hrun1. rewrite Hr in Hb1.
  assert (Hrun1' : AllowRun ((created0, now0) :: clock1) ip rl
                   = Some (repeat true (S m), rl1)).
  { cbn [AllowRun] in Hrun1 |- *. rewrite (Allow_fresh created0 now0 ip rl Hnone).
    fold rl0. exact Hrun1. }
  assert (Hmax1 : maxRate rl1 = Z.of_nat (S m)) by (rewrite Hm1; unfold rl0; simpl; exact Hmax).
  assert (Hper1 : period rl1 = period rl) by (rewrite Hp1; reflexivity).
  pose proof (Allow_refill created1 now1 ip rl1 0 created0 Hb1) as HA.
  rewrite Hmax1, Hper1 in HA.
  specialize (HA ltac:(lia) ltac:(lia) Hp He Hov).
  set (rl2 := set_buckets
                (<[ip := {| tokens := Z.of_nat (S m) - 1; lastRefill := now1 |}]>
                   (buckets rl1)) rl1) in *.
  assert (Hb2 : buckets rl2 !! ip = Some {| tokens := Z.of_nat m; lastRefill := now1 |}).
  { unfold rl2. simpl. rewrite lookup_insert_eq. do 2 f_equal. lia. }
  assert (Hper2 : period rl2 = period rl) by (unfold rl2; simpl; exact Hper1).
  destruct (AllowRun_within_period ip now1 clock2 rl2 (Z.of_nat m) Hb2)
    as (rl3 & Hrun2 & _).
  { rewrite Hper2. exact Hp. }
  { rewrite Hper2. exact Hall2. }
  rewrite Hlen2 in Hrun2. destruct (drain_exact m) as [Hd2 _]. rewrite Hd2 in Hrun2.
  exists rl3. rewrite (AllowRun_app ip _ _ rl rl1 _ Hrun1').
  cbn [AllowRun]. rewrite HA, Hrun2.
  rewrite repeat_app. reflexivity.
Qed.

Lemma RateLimiter_allows_double_burst_witness :
  exists rl',
    AllowRun ([(0, minute - 10); (0, minute - 9); (0, minute - 8); (0, minute - 7);
               (0, minute - 6); (0, minute - 5); (0, minute - 4); (0, minute - 3);
               (0, minute - 2); (0, minute - 1)]
              ++ [(0, minute); (0, minute + 1); (0, minute + 2); (0, minute + 3);
                  (0, minute + 4); (0, minute + 5); (0, minute + 6); (0, minute + 7);
                  (0, minute + 8); (0, minute + 9)])
      "203.0.113.7" (NewRateLimiter 10 minute)
    = Some (repeat true (10 + 10), rl').
Proof.
  apply (RateLimiter_allows_double_burst 9 "203.0.113.7" (NewRateLimiter 10 minute)
           0 (minute - 10) 0 minute
           [(0, minute - 9); (0, minute - 8); (0, minute - 7); (0, minute - 6);
            (0, minute - 5); (0, minute - 4); (0, minute - 3); (0, minute - 2);
            (0, minute - 1)]
           [(0, minute + 1); (0, minute + 2); (0, minute + 3); (0, minute + 4);
            (0, minute + 5); (0, minute + 6); (0, minute + 7); (0, minute + 8);
            (0, minute + 9)]).
  - reflexivity.
  - reflexivity.
  - reflexivity.
  - reflexivity.
  - repeat constructor; vm_compute; discriminate || reflexivity.
  - vm_compute. discriminate.
  - vm_compute. reflexivity.
  - reflexivity.
  - repeat constructor; vm_compute; discriminate || reflexivity.
Defined.

(** ** The circuits beyond the boundary case *)

(** [LessThan(64)] on operands of at most 64 bits. *)
Lemma LessThan_64 (a b : Z) :
  0 <= a < 2 ^ 64 -> 0 <= b <= 2 ^ 64 ->
  LessThan 64 a b = Some (if (a <? b)%Z then 1 else 0).
Proof.
  intros Ha Hb. pose proof ScalarField_gt_2_65 as Hq.
  unfold LessThan. rewrite !Z.shiftl_1_l. change (2 ^ (64 + 1)) with (2 ^ 65).
  rewrite (Z.mod_small (a + 2 ^ 64 - b)) by lia.
  destruct (Z.ltb_spec (a + 2 ^ 64 - b) (2 ^ 65)) as [_ | Hge]; [| lia].
  rewrite Z.testbit_eqb by lia. f_equal.
  destruct (Z.ltb_spec a b) as [Hlt | Hge].
  - rewrite (Z.div_small (a + 2 ^ 64 - b)) by lia. reflexivity.
  - replace (a + 2 ^ 64 - b) with ((a - b) + 1 * 2 ^ 64) by lia.
    rewrite Z.div_add by lia. rewrite (Z.div_small (a - b)) by lia. reflexivity.
Qed.

(** X20. On amounts of at most 64 bits the amount check of the circom
    circuits and the one of [Define] accept the same witnesses: those with
    [minAmount <= actualAmount]. *)
Theorem amount_checks_agree_on_64_bits (c : PaymentCircuit.t Z) :
  0 <= PaymentCircuit.ActualAmount c < 2 ^ 64 ->
  0 <= PaymentCircuit.MinAmount c < 2 ^ 64 ->
  circom_amountCheck (PaymentCircuit.ActualAmount c) (PaymentCircuit.MinAmount c)
  = Define_amount_check c /\
  (Define_amount_check c = true <->
   PaymentCircuit.MinAmount c <= PaymentCircuit.ActualAmount c).
Proof.
  intros Ha Hm. pose proof ScalarField_gt_2_65 as Hq.
  unfold circom_amountCheck, GreaterEqThan, Define_amount_check, api_AssertIsLessOrEqual.
  rewrite (Z.mod_small (PaymentCircuit.ActualAmount c + 1)) by lia.
  rewrite LessThan_64 by lia.
  split; [| apply Z.leb_le].
  destruct (Z.ltb_spec (PaymentCircuit.MinAmount c) (PaymentCircuit.ActualAmount c + 1));
    destruct (Z.leb_spec (PaymentCircuit.MinAmount c) (PaymentCircuit.ActualAmount c));
    try reflexivity; lia.
Qed.

Lemma amount_checks_agree_on_64_bits_witness :
  circom_amountCheck (PaymentCircuit.ActualAmount insufficient_witness)
    (PaymentCircuit.MinAmount insufficient_witness)
  = Define_amount_check insufficient_witness /\
  (Define_amount_check insufficient_witness = true <->
   PaymentCircuit.MinAmount insufficient_witness
   <= PaymentCircuit.ActualAmount insufficient_witness).
Proof.
  apply (amount_checks_agree_on_64_bits insufficient_witness).
  - vm_compute. split; [discriminate | reflexivity].
  - vm_compute. split; [discriminate | reflexivity].
Defined.

(** X21. A payment dated after [currentTime] passes the recency check of
    the circom circuits, which sees the negative difference as a small
    field element once [2^64] is added, whereas the time check of [Define]
    fails on it. *)
Theorem circom_timeCheck_accepts_future_payment (c : PaymentCircuit.t Z) :
  0 <= PaymentCircuit.CurrentTime c < PaymentCircuit.PaymentTime c ->
  PaymentCircuit.PaymentTime c < ScalarField ->
  0 <= PaymentCircuit.MaxBlockAge c ->
  PaymentCircuit.PaymentTime c - PaymentCircuit.CurrentTime c
  + PaymentCircuit.MaxBlockAge c <= 2 ^ 64 ->
  circom_timeCheck (PaymentCircuit.CurrentTime c) (PaymentCircuit.PaymentTime c)
    (PaymentCircuit.MaxBlockAge c) = true /\
  Define_time_check c = false.
Proof.
  intros Ht Hq Hm Hd. pose proof ScalarField_gt_2_65 as Hq65.
  set (ct := PaymentCircuit.CurrentTime c) in *.
  set (pt := PaymentCircuit.PaymentTime c) in *.
  set (mba := PaymentCircuit.MaxBlockAge c) in *.
  assert (Hdiff : (ct - pt) mod ScalarField = ScalarField - (pt - ct)).
  { replace (ct - pt) with ((ScalarField - (pt - ct)) + (-1) * ScalarField) by lia.
    rewrite Z.mod_add by lia. apply Z.mod_small. lia. }
  split.
  - unfold circom_timeCheck, LessThan. rewrite Hdiff.
    rewrite !Z.shiftl_1_l. change (2 ^ (64 + 1)) with (2 ^ 65).
    replace (ScalarField - (pt - ct) + 2 ^ 64 - mba)
      with ((2 ^ 64 - (pt - ct) - mba) + 1 * ScalarField) by lia.
    rewrite Z.mod_add by lia.
    rewrite (Z.mod_small (2 ^ 64 - (pt - ct) - mba)) by lia.
    destruct (Z.ltb_spec (2 ^ 64 - (pt - ct) - mba) (2 ^ 65)) as [_ | Hge]; [| lia].
    rewrite Z.testbit_eqb by lia.
    rewrite (Z.div_small (2 ^ 64 - (pt - ct) - mba)) by lia. reflexivity.
  - unfold Define_time_check, api_AssertIsLessOrEqual, api_Sub.
    fold ct pt mba. rewrite Hdiff. apply Z.leb_gt. lia.
Qed.

Lemma circom_timeCheck_accepts_future_payment_witness :
  circom_timeCheck 1700000000 1700000100 60 = true /\
  Define_time_check future_witness = false.
Proof.
  apply (circom_timeCheck_accepts_future_payment future_witness).
  - vm_compute. split; [discriminate | reflexivity].
  - vm_compute. reflexivity.
  - vm_compute. discriminate.
  - vm_compute. discriminate.
Defined.

(** ** Validation and the circuit together *)

Lemma frontend_NewWitness_times (B : Backend) (req : ProofRequest) (w : PaymentCircuit.t Z) :
  frontend_NewWitness B (assignment_of req) = Some w ->
  PaymentCircuit.CurrentTime w = CurrentTime req mod ScalarField /\
  PaymentCircuit.PaymentTime w = PaymentTime req mod ScalarField /\
  fr_SetString B (MaxBlockAge req) = Some (PaymentCircuit.MaxBlockAge w).
Proof.
  unfold frontend_NewWitness, assignment_of. cbn [PaymentCircuit.MinAmount
    PaymentCircuit.RecipientKeyX PaymentCircuit.RecipientKeyY PaymentCircuit.MaxBlockAge
    PaymentCircuit.CurrentTime PaymentCircuit.ActualAmount PaymentCircuit.SenderKeyX
    PaymentCircuit.SenderKeyY PaymentCircuit.PaymentTime PaymentCircuit.SignatureR8X
    PaymentCircuit.SignatureR8Y PaymentCircuit.SignatureS fr_of_Variable].
  destruct (fr_SetString B (MinAmount req)); [| discriminate].
  destruct (fr_SetString B (RecipientKeyX req)); [| discriminate].
  destruct (fr_SetString B (RecipientKeyY req)); [| discriminate].
  destruct (fr_SetString B (MaxBlockAge req)); [| discriminate].
  destruct (fr_SetString B (ActualAmount req)); [| discriminate].
  destruct (fr_SetString B (SenderKeyX req)); [| discriminate].
  destruct (fr_SetString B (SenderKeyY req)); [| discriminate].
  destruct (fr_SetString B (SignatureR8X req)); [| discriminate].
  destruct (fr_SetString B (SignatureR8Y req)); [| discriminate].
  destruct (fr_SetString B (SignatureS req)); [| discriminate].
  simpl. intros H. inversion H; subst. simpl. auto.
Qed.

(** X22. For a request that passed validation, the subtraction in
    [Define] does not wrap around the field: the time check holds exactly
    when [currentTime - paymentTime] is at most the field value of
    [maxBlockAge], and it always holds once that value is 360 or more. *)
Theorem validated_request_time_check
    (B : Backend) (now : Z) (req : ProofRequest) (w : PaymentCircuit.t Z) :
  validateProofRequest now req = None ->
  frontend_NewWitness B (assignment_of req) = Some w ->
  Define_time_check w
  = (CurrentTime req - PaymentTime req <=? PaymentCircuit.MaxBlockAge w)%Z /\
  (360 <= PaymentCircuit.MaxBlockAge w -> Define_time_check w = true).
Proof.
  intros Hval Hw.
  apply validateProofRequest_None in Hval.
  destruct Hval as (_ & _ & _ & _ & Hwc & Hwp & Hle).
  assert (Hage : 0 <= CurrentTime req - PaymentTime req <= 360) by lia.
  destruct (frontend_NewWitness_times B req w Hw) as (Hc & Hp & _).
  assert (Heq : Define_time_check w
                = (CurrentTime req - PaymentTime req <=? PaymentCircuit.MaxBlockAge w)%Z).
  { unfold Define_time_check, api_AssertIsLessOrEqual, api_Sub. rewrite Hc, Hp.
    rewrite <- Zminus_mod. rewrite Z.mod_small; [reflexivity |].
    pose proof ScalarField_gt_2_65. lia. }
  split; [exact Heq |]. intros Hbig. rewrite Heq. apply Z.leb_le. lia.
Qed.

Lemma validated_request_time_check_witness :
  Define_time_check boundary_witness = (1700000000 - 1699999940 <=? 60)%Z /\
  (360 <= 60 -> Define_time_check boundary_witness = true).
Proof.
  assert (Hval : validateProofRequest sample_now
                   (with_times 1700000000 1699999940 sample_request) = None)
    by (vm_compute; reflexivity).
  assert (Hw : frontend_NewWitness toy_backend
                 (assignment_of (with_times 1700000000 1699999940 sample_request))
               = Some boundary_witness)
    by (vm_compute; reflexivity).
  exact (validated_request_time_check toy_backend sample_now
           (with_times 1700000000 1699999940 sample_request) boundary_witness Hval Hw).
Defined.

(** ** The request hash of the proof database *)

Lemma hex_of_bytes_length (s : string) :
  String.length (hex_of_bytes s) = (2 * String.length s)%nat.
Proof. induction s as [| c s IH]; simpl; [reflexivity | rewrite IH; lia]. Qed.

Lemma hex_of_bytes_prefix (n : nat) :
  forall s : string,
    String.substring 0 (2 * n) (hex_of_bytes s) = hex_of_bytes (String.substring 0 n s).
Proof.
  induction n as [| n IH]; intros s.
  - destruct s; reflexivity.
  - replace (2 * S n)%nat with (S (S (2 * n))) by lia.
    destruct s as [| c s]; [reflexivity |].
    cbn [hex_of_bytes String.substring]. rewrite IH. reflexivity.
Qed.

Lemma substring_append_prefix (n : nat) :
  forall a b : string,
    (n <= String.length a)%nat ->
    String.substring 0 n (a ++ b) = String.substring 0 n a.
Proof.
  induction n as [| n IH]; intros a b Hn.
  - destruct a, b; reflexivity.
  - destruct a as [| c a]; [simpl in Hn; lia |].
    change (String c (String.substring 0 n (a ++ b))
            = String c (String.substring 0 n a)).
    f_equal. apply IH. simpl in Hn. lia.
Qed.

Lemma string_append_assoc (a b c : string) : (a ++ b) ++ c = a ++ (b ++ c).
Proof.
  induction a as [| x a IH]; [reflexivity |].
  change (String x ((a ++ b) ++ c) = String x (a ++ (b ++ c))). f_equal. exact IH.
Qed.

Lemma string_append_length (a b : string) :
  String.length (a ++ b) = (String.length a + String.length b)%nat.
Proof.
  induction a as [| x a IH]; [reflexivity |].
  change (S (String.length (a ++ b)) = S (String.length a + String.length b)).
  f_equal. exact IH.
Qed.

Lemma generateRequestHash_spec (req : DatabaseRequest.t) :
  generateRequestHash req
  = if (32 <=? String.length (request_data req))%nat
    then Some (hex_of_bytes (String.substring 0 32 (request_data req)))
    else None.
Proof.
  unfold generateRequestHash, slice_to. rewrite hex_of_bytes_length.
  destruct (Nat.leb_spec 32 (String.length (request_data req)));
    destruct (Nat.leb_spec 64 (2 * String.length (request_data req))); try lia.
  - f_equal. apply (hex_of_bytes_prefix 32).
  - reflexivity.
Qed.

(** X23. [generateRequestHash] panics exactly when the formatted request
    is shorter than 32 bytes: the hexadecimal string is then shorter than
    the 64 characters sliced from it. *)
Theorem generateRequestHash_panics_on_short_requests (req : DatabaseRequest.t) :
  generateRequestHash req = None <-> (String.length (request_data req) < 32)%nat.
Proof.
  rewrite generateRequestHash_spec.
  destruct (Nat.leb_spec 32 (String.length (request_data req))) as [Hlong | Hshort]; split;
    intros Hx; try discriminate; try reflexivity; lia.
Qed.

(** X24. The request hash is the hexadecimal form of the first 32 bytes
    of the formatted request and nothing more: two requests with the same
    [minAmount] and [recipientKey], these two taking 31 characters or more,
    have the same 64-character hash whatever their other fields. *)
Theorem generateRequestHash_ignores_all_but_32_bytes (r1 r2 : DatabaseRequest.t) :
  DatabaseRequest.MinAmount r1 = DatabaseRequest.MinAmount r2 ->
  DatabaseRequest.RecipientKey r1 = DatabaseRequest.RecipientKey r2 ->
  (31 <= String.length (DatabaseRequest.MinAmount r1)
         + String.length (DatabaseRequest.RecipientKey r1))%nat ->
  exists h,
    generateRequestHash r1 = Some h /\ generateRequestHash r2 = Some h /\
    String.length h = 64%nat /\
    h = hex_of_bytes
          (String.substring 0 32
             (DatabaseRequest.MinAmount r1 ++ ":" ++ DatabaseRequest.RecipientKey r1)).
Proof.
  intros Hm Hk Hlen.
  assert (Hdata : forall r,
             DatabaseRequest.MinAmount r = DatabaseRequest.MinAmount r1 ->
             DatabaseRequest.RecipientKey r = DatabaseRequest.RecipientKey r1 ->
             generateRequestHash r
             = Some (hex_of_bytes
                       (String.substring 0 32
                          (DatabaseRequest.MinAmount r1 ++ ":" ++
                           DatabaseRequest.RecipientKey r1)))).
  { intros r Em Ek. rewrite generateRequestHash_spec.
    assert (Hsplit : exists tail,
               request_data r
               = (DatabaseRequest.MinAmount r1 ++ ":" ++ DatabaseRequest.RecipientKey r1)
                 ++ tail).
    { eexists. unfold request_data. rewrite Em, Ek.
      rewrite !string_append_assoc. reflexivity. }
    destruct Hsplit as [tail ->].
    assert (Hp : (32 <= String.length (DatabaseRequest.MinAmount r1 ++ ":" ++
                                        DatabaseRequest.RecipientKey r1))%nat).
    { rewrite !string_append_length. simpl. lia. }
    rewrite string_append_length.
    destruct (Nat.leb_spec 32 (String.length (DatabaseRequest.MinAmount r1 ++ ":" ++
                                              DatabaseRequest.RecipientKey r1)
                              + String.length tail)); [| lia].
    rewrite substring_append_prefix by exact Hp. reflexivity. }
  eexists. split; [apply Hdata; reflexivity |].
  split; [apply Hdata; symmetry; assumption |].
  split; [| reflexivity].
  rewrite hex_of_bytes_length.
  assert (Hsub : forall (n : nat) (s : string),
             (n <= String.length s)%nat -> String.length (String.substring 0 n s) = n).
  { induction n as [| n IH]; intros s Hs.
    - destruct s; reflexivity.
    - destruct s as [| c s]; [simpl in Hs; lia |]. simpl. rewrite IH; [reflexivity |].
      simpl in Hs. lia. }
  rewrite Hsub; [reflexivity |]. rewrite !string_append_length. simpl. lia.
Qed.

Lemma generateRequestHash_ignores_all_but_32_bytes_witness :
  exists h,
    generateRequestHash database_request_1 = Some h /\
    generateRequestHash database_request_2 = Some h /\
    String.length h = 64%nat /\
    h = hex_of_bytes
          (String.substring 0 32
             (DatabaseRequest.MinAmount database_request_1 ++ ":" ++
              DatabaseRequest.RecipientKey database_request_1)).
Proof.
  apply (generateRequestHash_ignores_all_but_32_bytes database_request_1
           database_request_2).
  - reflexivity.
  - reflexivity.
  - vm_compute. lia.
Defined.

(** ** API-key authentication *)

Lemma cut_space_Some (s before after : string) :
  cut_space s = Some (before, after) -> s = before ++ " " ++ after.
Proof.
  revert before after. induction s as [| c s IH]; intros before after H.
  - discriminate.
  - cbn [cut_space] in H. destruct (Ascii.eqb_spec c " ") as [-> | Hc].
    + inversion H; subst. reflexivity.
    + destruct (cut_space s) as [[b a] |]; [| discriminate].
      inversion H; subst. simpl. rewrite (IH b after eq_refl). reflexivity.
Qed.

(** X25. With an API key configured, [authMiddleware] lets a request
    through exactly when its Authorization header is ["Bearer "] followed
    by the key, byte for byte; every other header is answered 401. *)
Theorem authMiddleware_accepts_exactly_the_bearer_key (apiKey authHeader : string) :
  apiKey <> "" ->
  (authMiddleware apiKey authHeader = AuthNext <-> authHeader = "Bearer " ++ apiKey) /\
  (authHeader <> "Bearer " ++ apiKey ->
   exists msg, authMiddleware apiKey authHeader = AuthAbort StatusUnauthorized msg).
Proof.
  intros Hkey.
  assert (Hfwd : authMiddleware apiKey authHeader = AuthNext ->
                 authHeader = "Bearer " ++ apiKey).
  { unfold authMiddleware, SplitN2, ConstantTimeCompare.
    destruct (String.eqb_spec apiKey ""); [contradiction |].
    destruct (String.eqb_spec authHeader ""); [discriminate |].
    destruct (cut_space authHeader) as [[scheme provided] |] eqn:Hcut; [| discriminate].
    destruct (String.eqb_spec scheme "Bearer") as [-> | _]; [| discriminate].
    destruct (String.eqb_spec provided apiKey) as [-> | _]; [| discriminate].
    intros _. apply cut_space_Some in Hcut. exact Hcut. }
  assert (Hbwd : authHeader = "Bearer " ++ apiKey ->
                 authMiddleware apiKey authHeader = AuthNext).
  { intros ->. unfold authMiddleware, SplitN2, ConstantTimeCompare.
    destruct (String.eqb_spec apiKey ""); [contradiction |].
    change (String.eqb ("Bearer " ++ apiKey) "") with false.
    change (cut_space ("Bearer " ++ apiKey)) with (Some ("Bearer", apiKey)).
    cbv iota beta. change (String.eqb "Bearer" "Bearer") with true.
    rewrite String.eqb_refl. reflexivity. }
  split; [split; assumption |].
  intros Hne.
  destruct (authMiddleware apiKey authHeader) as [| code msg] eqn:HA.
  - contradiction Hne. apply Hfwd. reflexivity.
  - exists msg. f_equal.
    revert HA. unfold authMiddleware, SplitN2.
    destruct (String.eqb apiKey ""); [discriminate |].
    destruct (String.eqb authHeader ""); [intros H; inversion H; reflexivity |].
    destruct (cut_space authHeader) as [[scheme provided] |];
      [| intros H; inversion H; reflexivity].
    destruct (negb (String.eqb scheme "Bearer")); [intros H; inversion H; reflexivity |].
    destruct (negb _); intros H; inversion H; reflexivity.
Qed.

Lemma authMiddleware_accepts_exactly_the_bearer_key_witness :
  (authMiddleware "s3cret" "bearer s3cret" = AuthNext <-> "bearer s3cret" = "Bearer s3cret") /\
  ("bearer s3cret" <> "Bearer s3cret" ->
   exists msg, authMiddleware "s3cret" "bearer s3cret" = AuthAbort StatusUnauthorized msg).
Proof.
  apply (authMiddleware_accepts_exactly_the_bearer_key "s3cret" "bearer s3cret").
  discriminate.
Defined.
